(** * ecs-wait-action: the retry gate of [src/index.js]

    A shallow embedding of the GitHub Action that waits for AWS ECS services
    to become stable.  The action talks to three outside parties (the
    Actions toolkit, AWS STS and AWS ECS); their answers are gathered in a
    [Host] record and every call the program makes to them is recorded, in
    order, in the [events] of the running [Process].

    Numbers are the values [parseInt] can produce: an integer or [NaN].
    Integers are kept exact (type [Z]).  This is the behaviour of JavaScript
    doubles for magnitudes up to 2^53, which a retry counter stays in; beyond
    it JavaScript rounds what [parseInt] reads to the nearest double, and
    from 10^21 on it prints a number with an exponent, which [parseInt] and
    [number_toString] below do not follow. *)

From Stdlib Require Import Ascii String ZArith Lia.
From stdpp Require Import base strings list gmap pretty.
From Equations Require Import Equations.
From Equations.Prop Require Import Logic.

Local Open Scope string_scope.
Local Open Scope Z_scope.

(** ** JavaScript values *)

Inductive number : Type :=
| NaN
| Num (z : Z).

(** [a <= b] and [a > b] on numbers: any comparison with [NaN] is false. *)
Definition js_le (a b : number) : bool :=
  match a, b with
  | Num x, Num y => x <=? y
  | _, _ => false
  end.

Definition js_gt (a b : number) : bool :=
  match a, b with
  | Num x, Num y => y <? x
  | _, _ => false
  end.

(** [n.toString()] and the interpolation of a number in a template: the
    decimal digits, as JavaScript prints integers below 10^21. *)
Definition number_toString (n : number) : string :=
  match n with
  | NaN => "NaN"
  | Num z => pretty z
  end.

(** [parseInt(s, 10)]: leading white space is skipped, one sign is read, then
    the longest run of decimal digits; no digit at all gives [NaN].  What
    follows the digits is ignored.  Only the white space of ASCII is
    recognised: [core.getInput] hands over its values trimmed.  The integer
    read is kept exact, as JavaScript does up to 2^53. *)
Definition is_white (a : ascii) : bool :=
  let n := nat_of_ascii a in
  ((9 <=? n)%nat && (n <=? 13)%nat) || (n =? 32)%nat.

Fixpoint skip_white (s : string) : string :=
  match s with
  | String a s' => if is_white a then skip_white s' else s
  | EmptyString => s
  end.

Definition digit_of (a : ascii) : option Z :=
  let n := nat_of_ascii a in
  if ((48 <=? n)%nat && (n <=? 57)%nat) then Some (Z.of_nat n - 48) else None.

Fixpoint read_digits (s : string) (acc : option Z) : option Z :=
  match s with
  | String a s' =>
      match digit_of a with
      | Some d => read_digits s' (Some (10 * default 0 acc + d))
      | None => acc
      end
  | EmptyString => acc
  end.

Definition parseInt (s : string) : number :=
  let s := skip_white s in
  let '(sign, rest) :=
    match s with
    | String "-" s' => (-1, s')
    | String "+" s' => (1, s')
    | _ => (1, s)
    end in
  match read_digits rest None with
  | Some n => Num (sign * n)
  | None => NaN
  end.

Local Unset Elimination Schemes.
(** The values [JSON.parse] returns. *)
Inductive json : Type :=
| JNull
| JBool (b : bool)
| JNumber (literal : string)
| JString (s : string)
| JArray (items : list json)
| JObject (members : list (string * json)).
Local Set Elimination Schemes.

(** A thrown or rejected error object: its [message] and, for errors of the
    AWS SDK, the [originalError] it wraps ([None] is [undefined]). *)
Record Error : Type := mkError {
  message : string;
  originalError : option json
}.

(** How an evaluation ends: normally with a value, or by throwing.  A
    rejected promise that is awaited throws at the [await]. *)
Inductive completion (A : Type) : Type :=
| Normal (a : A)
| Throw (e : Error).
Arguments Normal {A} a.
Arguments Throw {A} e.

(** ** AWS objects *)

Record STSClientConfig : Type := { sts_region : string }.

Record AssumeRoleCommand : Type := {
  RoleArn : string;
  RoleSessionName : string
}.

(** The [Credentials] member of an AssumeRole response. *)
Record STSCredentials : Type := {
  AccessKeyId : option string;
  SecretAccessKey : option string;
  SessionToken : option string
}.

Record AssumeRoleResponse : Type := { Credentials : option STSCredentials }.

(** The object [assumeRoleInAccount] returns. *)
Record credentials : Type := {
  cred_accessKeyId : option string;
  cred_secretAccessKey : option string;
  cred_sessionToken : option string;
  cred_region : string
}.

(** The options [createEcsConnection] gives to [new AWS.ECS]; the connection
    object is identified with them. *)
Record ECS : Type := {
  apiVersion : string;
  accessKeyId : option string;
  secretAccessKey : option string;
  sessionToken : option string;
  ecs_region : string
}.

(** ** The host and the running process *)

Inductive Event : Type :=
| ConsoleInfo (msg : string)
| ConsoleWarn (msg : string)
| ConsoleError (msg : string)
| ConsoleLog (msg : string)
| SetFailed (msg : string)
| SetOutput (name value : string)
| StsSend (client : STSClientConfig) (command : AssumeRoleCommand)
| NewECS (options : ECS)
| WaitFor (connection : ECS) (state cluster : string) (services : json).

Record Process : Type := mkProcess {
  events : list Event;
  exitCode : Z
}.

Definition start : Process := {| events := []; exitCode := 0 |}.

Record Host : Type := {
  (** [core.getInput]: the inputs of the step, absent ones read as [""] *)
  inputs : gmap string string;
  (** [process.env.AWS_REGION] *)
  AWS_REGION : option string;
  (** the built-in [JSON.parse], which throws on a text that is not JSON *)
  JSON_parse : string → completion json;
  (** the built-in [JSON.stringify], as interpolated in a template; on the
      [originalError] of an error of the SDK it returns *)
  JSON_stringify : option json → string;
  (** what the identity provider answers to [stsClient.send] *)
  sts_reply : STSClientConfig → AssumeRoleCommand → completion AssumeRoleResponse;
  (** whether [new AWS.ECS] throws on these options *)
  ecs_refuses : ECS → option Error;
  (** the outcome of the wait for [servicesStable] number [n] of the run,
      counted from 0: [None] resolves, [Some e] rejects with [e] *)
  wait_reply : nat → option Error
}.

(** ** Actions: state passing with exceptions *)

Definition Act (A : Type) : Type := Process → completion A * Process.

Global Instance Act_ret : MRet Act := λ A a p, (Normal a, p).
Global Instance Act_bind : MBind Act := λ A B f m p,
  match m p with
  | (Normal a, p') => f a p'
  | (Throw e, p') => (Throw e, p')
  end.

Definition throw {A} (e : Error) : Act A := λ p, (Throw e, p).

(** [try { body } catch (e) { handler }] *)
Definition try_catch {A} (body : Act A) (handler : Error → Act A) : Act A :=
  λ p,
  match body p with
  | (Normal a, p') => (Normal a, p')
  | (Throw e, p') => handler e p'
  end.

Definition of_completion {A} (c : completion A) : Act A := λ p, (c, p).

Definition emit (e : Event) : Act () :=
  λ p, (Normal (), {| events := events p ++ [e]; exitCode := exitCode p |}).

Definition when (b : bool) (a : Act ()) : Act () :=
  if b then a else mret ().

Definition is_WaitFor (e : Event) : bool :=
  match e with WaitFor _ _ _ _ => true | _ => false end.

(** The number of stability checks started so far. *)
Definition waits (p : Process) : nat :=
  length (List.filter is_WaitFor (events p)).

(** ** The program *)

Section Action.

Variable host : Host.

(** *** The Actions toolkit and the console *)

Definition core_getInput (name : string) : string :=
  default "" (inputs host !! name).

(** [core.setFailed] sets the exit code of the process to 1 and reports the
    message. *)
Definition core_setFailed (msg : string) : Act () :=
  λ p, (Normal (), {| events := events p ++ [SetFailed msg]; exitCode := 1 |}).

Definition core_setOutput (name value : string) : Act () :=
  emit (SetOutput name value).

Definition console_info (msg : string) : Act () := emit (ConsoleInfo msg).
Definition console_warn (msg : string) : Act () := emit (ConsoleWarn msg).
Definition console_error (msg : string) : Act () := emit (ConsoleError msg).
Definition console_log (msg : string) : Act () := emit (ConsoleLog msg).

(** A string is truthy when it is not empty; [undefined] is falsy. *)
Definition truthy (s : string) : bool := negb (String.eqb s "").

Definition truthy_opt (o : option string) : bool :=
  match o with
  | Some s => truthy s
  | None => false
  end.

(** *** The AWS clients *)

(** [new clientSTS.STSClient(config)]: the constructor resolves the region
    at once and throws when the configuration names none. *)
Definition new_STSClient (config : STSClientConfig) : completion STSClientConfig :=
  if truthy (sts_region config) then Normal config
  else Throw {| message := "Region is missing"; originalError := None |}.

(** [let stsClient = new clientSTS.STSClient({region: core.getInput('aws-region')})]:
    the client that the functions below use, once [new_STSClient] has built
    it when the module was loaded (see [run]). *)
Definition stsClient : STSClientConfig :=
  {| sts_region := core_getInput "aws-region" |}.

Definition stsClient_send (command : AssumeRoleCommand) : Act AssumeRoleResponse :=
  emit (StsSend stsClient command);;
  of_completion (sts_reply host stsClient command).

Definition new_ECS (options : ECS) : Act ECS :=
  emit (NewECS options);;
  match ecs_refuses host options with
  | Some e => throw e
  | None => mret options
  end.

(** [ecsConnection.waitFor(state, { cluster, services }).promise()], awaited:
    the call is recorded and the host decides how it ends. *)
Definition ECS_waitFor (connection : ECS) (state cluster : string) (services : json)
  : Act () :=
  λ p,
  let p' := {| events := events p ++ [WaitFor connection state cluster services];
               exitCode := exitCode p |} in
  match wait_reply host (waits p) with
  | None => (Normal (), p')
  | Some e => (Throw e, p')
  end.

Definition TypeError (msg : string) : Error :=
  {| message := msg; originalError := None |}.

(** *** [params] *)

Record Params : Type := {
  region : option string;
  retries : number;
  cluster : string;
  services : json;
  verbose : bool;
  assumeRole : string;
  ecsConnection : option ECS
}.

(** [params['ecsConnection'] = ecsConnection] *)
Definition set_ecsConnection (params : Params) (c : ECS) : Params :=
  {| region := region params; retries := retries params;
     cluster := cluster params; services := services params;
     verbose := verbose params; assumeRole := assumeRole params;
     ecsConnection := Some c |}.

(** *** [waitForStability] *)

Definition waitForStability (params : Params) : Act () :=
  match ecsConnection params with
  | Some connection =>
      ECS_waitFor connection "servicesStable" (cluster params) (services params)
  | None =>
      throw (TypeError "Cannot read properties of undefined (reading 'waitFor')")
  end.

(** *** [retry] *)

(** The two variables of the loop. *)
Record LoopVars : Type := {
  currTry : Z;
  isStable : bool
}.

(** [currTry <= retries && !isStable] *)
Definition retry_cond (params : Params) (v : LoopVars) : bool :=
  js_le (Num (currTry v)) (retries params) && negb (isStable v).

(** The body of the [while]: one [try ... catch]. *)
Definition retry_body (params : Params) (v : LoopVars) : Act LoopVars :=
  try_catch
    (when (verbose params)
       (console_info ("Waiting for service stability, try #" +:+ pretty (currTry v)));;
     waitForStability params;;
     mret {| currTry := currTry v; isStable := true |})
    (λ err,
     when (verbose params)
       (console_warn ("Try task #" +:+ pretty (currTry v)
                      +:+ " failed! Error information: "
                      +:+ JSON_stringify host (originalError err)));;
     mret {| currTry := currTry v + 1; isStable := isStable v |}).

(** What is left of the budget: the loop can go round at most this often. *)
Definition retry_budget (params : Params) (v : LoopVars) : nat :=
  match retries params with
  | Num r => if isStable v then 0%nat else Z.to_nat (r + 1 - currTry v)
  | NaN => 0%nat
  end.

Equations retry_loop (params : Params) (v : LoopVars) (p : Process)
  : completion Z * Process by wf (retry_budget params v) lt :=
  retry_loop params v p with inspect (retry_cond params v) := {
    | exist _ true Hcond with inspect (retry_body params v p) := {
        | exist _ (Normal v', p') Hbody => retry_loop params v' p'
        | exist _ (Throw e, p') _ => (Throw e, p') }
    | exist _ false _ => (Normal (currTry v), p) }.
Next Obligation.
  revert Hcond Hbody. unfold retry_cond, retry_budget, js_le.
  destruct (retries params) as [|r]; [done|].
  destruct v as [c st]; simpl. intros [Hle Hst]%andb_true_iff.
  apply negb_true_iff in Hst; subst st. apply Z.leb_le in Hle.
  unfold retry_body, try_catch, mbind, Act_bind, mret, Act_ret; simpl.
  destruct (when _ _ p) as [[[]|e0] p0]; simpl.
  - destruct (waitForStability params p0) as [[[]|e1] p1]; simpl.
    + intros [= <- _]; simpl. lia.
    + destruct (when _ _ p1) as [[[]|e2] p2]; simpl; intros [= <- _]; simpl.
      lia.
  - destruct (when _ _ p0) as [[[]|e2] p2]; simpl; intros [= <- _]; simpl.
    lia.
Qed.

(** [let currTry = 1; let isStable = false;] *)
Definition retry_init : LoopVars := {| currTry := 1; isStable := false |}.

Definition retry (params : Params) : Act Z :=
  retry_loop params retry_init.

(** *** [createEcsConnection] *)

Definition createEcsConnection (c : credentials) : Act ECS :=
  new_ECS {| apiVersion := "2014-11-13";
             accessKeyId := cred_accessKeyId c;
             secretAccessKey := cred_secretAccessKey c;
             sessionToken := cred_sessionToken c;
             ecs_region := cred_region c |}.

(** *** [assumeRoleInAccount] *)

Definition assumeRoleInAccount : Act credentials :=
  let command := {| RoleArn := core_getInput "role-to-assume";
                    RoleSessionName := "ecs-wait-action" |} in
  assumedRole ← stsClient_send command;
  match Credentials assumedRole with
  | Some c =>
      mret {| cred_accessKeyId := AccessKeyId c;
              cred_secretAccessKey := SecretAccessKey c;
              cred_sessionToken := SessionToken c;
              cred_region := "eu-central-1" |}
  | None =>
      throw (TypeError "Cannot read properties of undefined (reading 'AccessKeyId')")
  end.

(** *** [extractParams] *)

(** [null] is [None]. *)
Definition extractParams : Act (option Params) :=
  let region :=
    let r := core_getInput "aws-region" in
    if truthy r then Some r else AWS_REGION host in
  let retries := parseInt (core_getInput "retries") in
  let cluster := core_getInput "ecs-cluster" in
  services ← of_completion (JSON_parse host (core_getInput "ecs-services"));
  let verbose := String.eqb (core_getInput "verbose") "true" in
  let assumeRole := core_getInput "role-to-assume" in
  let params := {| region := region; retries := retries; cluster := cluster;
                   services := services; verbose := verbose;
                   assumeRole := assumeRole; ecsConnection := None |} in
  if negb (truthy (assumeRole)) || negb (truthy_opt region) then
    core_setFailed "AWS credentials were not found in inputs or environment variables.";;
    mret None
  else
    mret (Some params).

(** *** [main] *)

(** The verdict of [main] on the count that [retry] returned: the [if] that
    follows [const actualRetries = await retry(params)]. *)
Definition main_verdict (params : Params) (actualRetries : Z) : Act () :=
  if js_gt (Num actualRetries) (retries params) then
    when (verbose params)
      (console_error ("Service is not stable after "
                      +:+ number_toString (retries params) +:+ " retries!"));;
    core_setFailed ("Service is not stable after "
                    +:+ number_toString (retries params) +:+ " retries!")
  else
    when (verbose params)
      (console_log ("Service is stable after "
                    +:+ number_toString (Num actualRetries) +:+ " retries!"));;
    core_setOutput "retries" (number_toString (Num actualRetries)).

Definition main : Act () :=
  try_catch
    (params ← extractParams;
     credentials ← assumeRoleInAccount;
     match params with
     | None => mret ()
     | Some params =>
         ecsConnection ← createEcsConnection credentials;
         let params := set_ecsConnection params ecsConnection in
         actualRetries ← retry params;
         main_verdict params actualRetries
     end)
    (λ error, core_setFailed (message error)).

(** *** The module *)

(** What Node does with the file: the first statement builds [stsClient],
    outside any [try], and the last one calls [main].  An exception of the
    first statement is uncaught: [main] is not started, nothing is reported
    through the toolkit, and Node ends the process with exit code 1. *)
Definition run : completion () * Process :=
  match new_STSClient stsClient with
  | Normal _ => main start
  | Throw e => (Throw e, {| events := []; exitCode := 1 |})
  end.

End Action.

(** ** Example hosts *)

(** The text of a string literal: [s] between double quotes. *)
Definition quote : ascii := "034"%char.

Definition quoted (s : string) : string := String quote (s +:+ String quote "").

Module Demo.

(** A [JSON.parse] for the examples: it reads the arrays of string literals
    that use no escape, and throws a [SyntaxError] on every other text. *)
Inductive scanning : Type :=
| AtStart
| AfterOpen
| AfterComma
| InString (current : string)
| AfterItem
| AtEnd.

Definition json_white (a : ascii) : bool :=
  let n := nat_of_ascii a in
  (n =? 32)%nat || (n =? 9)%nat || (n =? 10)%nat || (n =? 13)%nat.

Fixpoint scan (st : scanning) (items : list json) (s : string) : option (list json) :=
  match s with
  | EmptyString => match st with AtEnd => Some items | _ => None end
  | String a s' =>
      match st with
      | AtStart =>
          if json_white a then scan AtStart items s'
          else if Ascii.eqb a "[" then scan AfterOpen items s' else None
      | AfterOpen =>
          if json_white a then scan AfterOpen items s'
          else if Ascii.eqb a "]" then scan AtEnd items s'
          else if Ascii.eqb a quote then scan (InString "") items s' else None
      | AfterComma =>
          if json_white a then scan AfterComma items s'
          else if Ascii.eqb a quote then scan (InString "") items s' else None
      | InString current =>
          if Ascii.eqb a quote then scan AfterItem (items ++ [JString current]) s'
          else if Ascii.eqb a "\" || (nat_of_ascii a <? 32)%nat then None
          else scan (InString (current +:+ String a "")) items s'
      | AfterItem =>
          if json_white a then scan AfterItem items s'
          else if Ascii.eqb a "," then scan AfterComma items s'
          else if Ascii.eqb a "]" then scan AtEnd items s' else None
      | AtEnd => if json_white a then scan AtEnd items s' else None
      end
  end.

Definition parse (s : string) : completion json :=
  match scan AtStart [] s with
  | Some items => Normal (JArray items)
  | None => Throw {| message := "Unexpected token in JSON"; originalError := None |}
  end.

(** A [JSON.stringify] for the examples; strings are printed without
    escaping. *)
Fixpoint stringify (j : json) : string :=
  match j with
  | JNull => "null"
  | JBool b => if b then "true" else "false"
  | JNumber literal => literal
  | JString s => quoted s
  | JArray items =>
      "[" +:+ String.concat "," (List.map stringify items) +:+ "]"
  | JObject members =>
      "{" +:+ String.concat ","
                (List.map (λ m, quoted m.1 +:+ ":" +:+ stringify m.2) members)
          +:+ "}"
  end.

Definition stringify_opt (o : option json) : string :=
  match o with
  | Some j => stringify j
  | None => "undefined"
  end.

(** The identity provider of the examples grants every role with a name. *)
Definition sts (client : STSClientConfig) (command : AssumeRoleCommand)
  : completion AssumeRoleResponse :=
  if String.eqb (RoleArn command) "" then
    Throw {| message := "1 validation error detected: Value at 'roleArn' failed to satisfy constraint";
             originalError := None |}
  else
    Normal {| Credentials := Some {| AccessKeyId := Some "AKIA";
                                     SecretAccessKey := Some "secret";
                                     SessionToken := Some "token" |} |}.

Definition timeout : Error :=
  {| message := "Resource is not in the state servicesStable";
     originalError := None |}.

(** A step configured with the given [retries], [role-to-assume] and
    [aws-region], on the services [svcA] and [svcB] of [cluster]; the
    stability checks end as [replies] says. *)
Definition host (retries role region : string) (replies : nat → option Error) : Host :=
  {| inputs := {[ "aws-region" := region; "retries" := retries;
                  "ecs-cluster" := "cluster";
                  "ecs-services" := "[" +:+ quoted "svcA" +:+ "," +:+ quoted "svcB" +:+ "]";
                  "role-to-assume" := role ]};
     AWS_REGION := None;
     JSON_parse := parse;
     JSON_stringify := stringify_opt;
     sts_reply := sts;
     ecs_refuses := λ _, None;
     wait_reply := replies |}.

(** The first [n] checks time out, the next one finds the services stable. *)
Definition fails_first (n : nat) : nat → option Error :=
  λ i, if (i <? n)%nat then Some timeout else None.

Definition always_fails : nat → option Error := λ _, Some timeout.

(** The connection and the parameters that [main] hands to [retry] on these
    hosts. *)
Definition connection : ECS :=
  {| apiVersion := "2014-11-13";
     accessKeyId := Some "AKIA";
     secretAccessKey := Some "secret";
     sessionToken := Some "token";
     ecs_region := "eu-central-1" |}.

Definition params (retries : number) : Params :=
  {| region := Some "eu-west-1";
     retries := retries;
     cluster := "cluster";
     services := JArray [JString "svcA"; JString "svcB"];
     verbose := false;
     assumeRole := "arn:aws:iam::123456789012:role/deploy";
     ecsConnection := Some connection |}.

Definition role : string := "arn:aws:iam::123456789012:role/deploy".




(** The same step where the identity provider answers [reply]. *)
Definition answering (h : Host) (reply : completion AssumeRoleResponse) : Host :=
  {| inputs := inputs h;
     AWS_REGION := AWS_REGION h;
     JSON_parse := JSON_parse h;
     JSON_stringify := JSON_stringify h;
     sts_reply := λ _ _, reply;
     ecs_refuses := ecs_refuses h;
     wait_reply := wait_reply h |}.

(** The same step with the [verbose] input set to [text]. *)
Definition with_verbose (h : Host) (text : string) : Host :=
  {| inputs := <[ "verbose" := text ]> (inputs h);
     AWS_REGION := AWS_REGION h;
     JSON_parse := JSON_parse h;
     JSON_stringify := JSON_stringify h;
     sts_reply := sts_reply h;
     ecs_refuses := ecs_refuses h;
     wait_reply := wait_reply h |}.

End Demo.

(** * Properties *)

(** ** Vocabulary *)

(** [extend p l]: the process [p] after the events [l], with the same exit
    code. *)
Definition extend (p : Process) (l : list Event) : Process :=
  {| events := events p ++ l; exitCode := exitCode p |}.

(** The events of one round of the loop of [retry]. *)
Definition info_of (v : LoopVars) : Event :=
  ConsoleInfo ("Waiting for service stability, try #" +:+ pretty (currTry v)).

Definition warn_of (host : Host) (v : LoopVars) (err : Error) : Event :=
  ConsoleWarn ("Try task #" +:+ pretty (currTry v)
               +:+ " failed! Error information: "
               +:+ JSON_stringify host (originalError err)).

Definition wait_of (params : Params) (connection : ECS) : Event :=
  WaitFor connection "servicesStable" (cluster params) (services params).

Definition traced (params : Params) (e : Event) : list Event :=
  if verbose params then [e] else [].

(** The events of a round in which the check resolves, and of one in which
    it rejects with [err]. *)
Definition round_stable (params : Params) (connection : ECS) (v : LoopVars)
  : list Event :=
  traced params (info_of v) ++ [wait_of params connection].

Definition round_failed (host : Host) (params : Params) (connection : ECS)
    (v : LoopVars) (err : Error) : list Event :=
  traced params (info_of v) ++ [wait_of params connection]
  ++ traced params (warn_of host v err).

(** The events a round of the loop can add: console traces, and waits on the
    connection, cluster and services of [params]. *)
Definition retry_event (params : Params) (e : Event) : Prop :=
  match e with
  | ConsoleInfo _ | ConsoleWarn _ => True
  | WaitFor c st cl sv =>
      ecsConnection params = Some c ∧ st = "servicesStable"
      ∧ cl = cluster params ∧ sv = services params
  | _ => False
  end.

(** One round, as a step between the states of the loop. *)
Definition retry_step (host : Host) (params : Params)
    (s s' : LoopVars * Process) : Prop :=
  retry_cond params s.1 = true
  ∧ retry_body host params s.1 s.2 = (Normal s'.1, s'.2).

(** The outcome of attempt [i], counted from 1, of a [retry] that starts in
    the process [p]: [None] when the check resolves. *)
Definition attempt (host : Host) (p : Process) (i : nat) : option Error :=
  wait_reply host (waits p + pred i)%nat.

(** What holds of the counter in every state of a [retry] that starts in
    [p0] with [m] retries: it stays between 1 and [m + 1]; while no check has
    resolved it is one more than the number of checks made, all of them
    rejected; once a check has resolved it is the number of checks made, and
    the last of them, the one with that number, is the one that resolved. *)
Definition counter_invariant (host : Host) (m : Z) (p0 : Process)
    (s : LoopVars * Process) : Prop :=
  1 <= currTry s.1 <= m + 1
  ∧ if isStable s.1 then
      currTry s.1 <= m
      ∧ waits s.2 = (waits p0 + Z.to_nat (currTry s.1))%nat
      ∧ attempt host p0 (Z.to_nat (currTry s.1)) = None
    else
      waits s.2 = (waits p0 + Z.to_nat (currTry s.1 - 1))%nat
      ∧ ∀ i, (1 ≤ i)%nat → Z.of_nat i < currTry s.1 → attempt host p0 i ≠ None.

(** The events by which the action reports its result. *)
Definition is_report (e : Event) : bool :=
  match e with
  | SetFailed _ | SetOutput _ _ => true
  | _ => false
  end.

Definition reports (p : Process) : list Event :=
  List.filter is_report (events p).

(** The command [assumeRoleInAccount] sends. *)
Definition assume_command (host : Host) : AssumeRoleCommand :=
  {| RoleArn := core_getInput host "role-to-assume";
     RoleSessionName := "ecs-wait-action" |}.

Definition not_stable_message (params : Params) : string :=
  "Service is not stable after " +:+ number_toString (retries params) +:+ " retries!".

Definition missing_message : string :=
  "AWS credentials were not found in inputs or environment variables.".

(** [params] with another region. *)
Definition set_region (params : Params) (r : option string) : Params :=
  {| region := r; retries := retries params;
     cluster := cluster params; services := services params;
     verbose := verbose params; assumeRole := assumeRole params;
     ecsConnection := ecsConnection params |}.

(** Every call that a run of [main] on [host] makes to AWS is of one of
    these forms. *)
Definition main_event (host : Host) (e : Event) : Prop :=
  match e with
  | StsSend client command =>
      client = stsClient host ∧ command = assume_command host
  | NewECS options => ecs_region options = "eu-central-1"
  | WaitFor connection state cluster services =>
      ecs_region connection = "eu-central-1"
      ∧ state = "servicesStable"
      ∧ cluster = core_getInput host "ecs-cluster"
      ∧ JSON_parse host (core_getInput host "ecs-services") = Normal services
  | _ => True
  end.

(** *** Vocabulary of the further properties *)

Definition is_console (e : Event) : bool :=
  match e with
  | ConsoleInfo _ | ConsoleWarn _ | ConsoleError _ | ConsoleLog _ => true
  | _ => false
  end.

Definition is_ConsoleInfo (e : Event) : bool :=
  match e with ConsoleInfo _ => true | _ => false end.

Definition is_ConsoleWarn (e : Event) : bool :=
  match e with ConsoleWarn _ => true | _ => false end.

Definition is_StsSend (e : Event) : bool :=
  match e with StsSend _ _ => true | _ => false end.

Definition is_NewECS (e : Event) : bool :=
  match e with NewECS _ => true | _ => false end.

Definition is_SetOutput (e : Event) : bool :=
  match e with SetOutput _ _ => true | _ => false end.

Definition is_SetFailed (e : Event) : bool :=
  match e with SetFailed _ => true | _ => false end.

(** The events of [l] that are not console output. *)
Definition calls (l : list Event) : list Event :=
  List.filter (λ e, negb (is_console e)) l.

(** [params] with another verbose flag. *)
Definition set_verbose (params : Params) (b : bool) : Params :=
  {| region := region params; retries := retries params;
     cluster := cluster params; services := services params;
     verbose := b; assumeRole := assumeRole params;
     ecsConnection := ecsConnection params |}.

(** The region [extractParams] resolves, and whether it finds the role and
    the region it asks for. *)
Definition resolved_region (host : Host) : option string :=
  if truthy (core_getInput host "aws-region")
  then Some (core_getInput host "aws-region")
  else AWS_REGION host.

Definition configured (host : Host) : bool :=
  truthy (core_getInput host "role-to-assume") && truthy_opt (resolved_region host).

(** The parameters [extractParams] reads when the services parse as [sv]. *)
Definition params_read (host : Host) (sv : json) : Params :=
  {| region := resolved_region host;
     retries := parseInt (core_getInput host "retries");
     cluster := core_getInput host "ecs-cluster";
     services := sv;
     verbose := String.eqb (core_getInput host "verbose") "true";
     assumeRole := core_getInput host "role-to-assume";
     ecsConnection := None |}.

(** The options [createEcsConnection] builds from credentials. *)
Definition options_of (c : credentials) : ECS :=
  {| apiVersion := "2014-11-13";
     accessKeyId := cred_accessKeyId c;
     secretAccessKey := cred_secretAccessKey c;
     sessionToken := cred_sessionToken c;
     ecs_region := cred_region c |}.

(** How the role assumption ends; the process it starts in plays no part. *)
Definition assumed (host : Host) : completion credentials :=
  (assumeRoleInAccount host start).1.

(** The events of the verdict of [main] on the count [n]. *)
Definition verdict_events (params : Params) (n : Z) : list Event :=
  if js_gt (Num n) (retries params) then
    traced params (ConsoleError (not_stable_message params))
    ++ [SetFailed (not_stable_message params)]
  else
    traced params (ConsoleLog ("Service is stable after " +:+ pretty n +:+ " retries!"))
    ++ [SetOutput "retries" (pretty n)].

(** The five ways a run of [main] can go, with what it leaves behind: the
    services do not parse; the role is not assumed; the role is assumed but
    the configuration was found incomplete; the connection is not built;
    the checks are made and judged. *)
Inductive run_path (host : Host) : completion () * Process → Prop :=
| run_unparsed e :
    JSON_parse host (core_getInput host "ecs-services") = Throw e →
    run_path host
      (Normal (), {| events := [SetFailed (message e)]; exitCode := 1 |})
| run_unassumed sv e :
    JSON_parse host (core_getInput host "ecs-services") = Normal sv →
    assumed host = Throw e →
    run_path host
      (Normal (),
       {| events := (if configured host then [] else [SetFailed missing_message])
                    ++ [StsSend (stsClient host) (assume_command host);
                        SetFailed (message e)];
          exitCode := 1 |})
| run_unconfigured sv creds :
    JSON_parse host (core_getInput host "ecs-services") = Normal sv →
    configured host = false →
    assumed host = Normal creds →
    run_path host
      (Normal (),
       {| events := [SetFailed missing_message;
                     StsSend (stsClient host) (assume_command host)];
          exitCode := 1 |})
| run_refused sv creds e :
    JSON_parse host (core_getInput host "ecs-services") = Normal sv →
    configured host = true →
    assumed host = Normal creds →
    ecs_refuses host (options_of creds) = Some e →
    run_path host
      (Normal (),
       {| events := [StsSend (stsClient host) (assume_command host);
                     NewECS (options_of creds);
                     SetFailed (message e)];
          exitCode := 1 |})
| run_checked sv creds n l :
    JSON_parse host (core_getInput host "ecs-services") = Normal sv →
    configured host = true →
    assumed host = Normal creds →
    ecs_refuses host (options_of creds) = None →
    retry host (set_ecsConnection (params_read host sv) (options_of creds))
      {| events := [StsSend (stsClient host) (assume_command host);
                    NewECS (options_of creds)];
         exitCode := 0 |}
    = (Normal n,
       {| events := [StsSend (stsClient host) (assume_command host);
                     NewECS (options_of creds)] ++ l;
          exitCode := 0 |}) →
    Forall (retry_event (set_ecsConnection (params_read host sv) (options_of creds))) l →
    run_path host
      (Normal (),
       {| events := [StsSend (stsClient host) (assume_command host);
                     NewECS (options_of creds)]
                    ++ l
                    ++ verdict_events
                         (set_ecsConnection (params_read host sv) (options_of creds)) n;
          exitCode := if js_gt (Num n) (parseInt (core_getInput host "retries"))
                      then 1 else 0 |}).

(** ** Processes and their events *)

Lemma extend_nil p : extend p [] = p.
Proof. destruct p; unfold extend; simpl. by rewrite app_nil_r. Qed.

Lemma extend_extend p l1 l2 : extend (extend p l1) l2 = extend p (l1 ++ l2).
Proof. unfold extend; simpl. by rewrite app_assoc. Qed.

Lemma waits_extend p l :
  waits (extend p l) = (waits p + length (List.filter is_WaitFor l))%nat.
Proof. unfold waits, extend; simpl. by rewrite List.filter_app, length_app. Qed.

Lemma emit_extend e p : emit e p = (Normal (), extend p [e]).
Proof. done. Qed.

Lemma when_extend b e p :
  when b (emit e) p = (Normal (), extend p (if b then [e] else [])).
Proof. destruct b; simpl; [done|]. by rewrite extend_nil. Qed.

Lemma ECS_waitFor_extend host connection state cluster services p :
  ECS_waitFor host connection state cluster services p =
  (match wait_reply host (waits p) with
   | None => Normal ()
   | Some e => Throw e
   end,
   extend p [WaitFor connection state cluster services]).
Proof. unfold ECS_waitFor. by destruct (wait_reply host (waits p)). Qed.

(** ** One round of the loop *)

Section Round.

Context (host : Host) (params : Params).

Lemma waits_traced p e :
  is_WaitFor e = false → waits (extend p (traced params e)) = waits p.
Proof.
  intros He. rewrite waits_extend. unfold traced.
  destruct (verbose params); simpl; [rewrite He|]; simpl; lia.
Qed.

Lemma retry_body_eq connection v p :
  ecsConnection params = Some connection →
  retry_body host params v p =
  match wait_reply host (waits p) with
  | None =>
      (Normal {| currTry := currTry v; isStable := true |},
       extend p (round_stable params connection v))
  | Some err =>
      (Normal {| currTry := currTry v + 1; isStable := isStable v |},
       extend p (round_failed host params connection v err))
  end.
Proof.
  intros Hc.
  unfold retry_body, try_catch, mbind, Act_bind, console_info, console_warn.
  rewrite when_extend. fold (info_of v). fold (traced params (info_of v)).
  unfold waitForStability. rewrite Hc, ECS_waitFor_extend.
  rewrite waits_traced by done. fold (wait_of params connection).
  destruct (wait_reply host (waits p)) as [err|].
  - rewrite when_extend. fold (warn_of host v err). fold (traced params (warn_of host v err)).
    unfold mret, Act_ret. by rewrite !extend_extend.
  - unfold mret, Act_ret. by rewrite !extend_extend.
Qed.

End Round.

(** ** The loop *)

Section Loop.

Context (host : Host) (params : Params).

Lemma retry_loop_step v p :
  retry_loop host params v p =
  if retry_cond params v then
    match retry_body host params v p with
    | (Normal v', p') => retry_loop host params v' p'
    | (Throw e, p') => (Throw e, p')
    end
  else (Normal (currTry v), p).
Proof.
  funelim (retry_loop host params v p).
  all: try match goal with H : retry_cond _ _ = _ |- _ => rewrite H end.
  all: try match goal with H : retry_body _ _ _ _ = _ |- _ => rewrite H end.
  all: done.
Qed.

Lemma traced_retry_event e :
  retry_event params e → Forall (retry_event params) (traced params e).
Proof. unfold traced. destruct (verbose params); by repeat constructor. Qed.

(** A round never throws: whatever the check rejects with is caught. *)
Lemma retry_body_normal v p :
  ∃ v' l, retry_body host params v p = (Normal v', extend p l)
          ∧ Forall (retry_event params) l.
Proof.
  destruct (ecsConnection params) as [c|] eqn:Hc.
  - rewrite (retry_body_eq host params c) by done.
    destruct (wait_reply host (waits p)) as [err|]; eexists _, _; (split; [done|]).
    + unfold round_failed. rewrite !Forall_app. split_and!.
      * by apply traced_retry_event.
      * by repeat constructor.
      * by apply traced_retry_event.
    + unfold round_stable. rewrite !Forall_app. split.
      * by apply traced_retry_event.
      * by repeat constructor.
  - unfold retry_body, try_catch, mbind, Act_bind, console_info, console_warn.
    rewrite when_extend. unfold waitForStability. rewrite Hc. unfold throw.
    rewrite when_extend. unfold mret, Act_ret. rewrite extend_extend.
    eexists _, _. split; [done|].
    rewrite Forall_app. split; by destruct (verbose params); repeat constructor.
Qed.

(** The loop runs rounds until its condition fails and returns the counter. *)
Lemma retry_loop_run v p :
  ∃ v' p', rtc (retry_step host params) (v, p) (v', p')
           ∧ retry_cond params v' = false
           ∧ retry_loop host params v p = (Normal (currTry v'), p').
Proof.
  funelim (retry_loop host params v p).
  - exists v, p. split_and!; [apply rtc_refl|done|done].
  - match goal with IH : ∃ _ _, _ |- _ => destruct IH as (v2 & p2 & Hrun & Hend & Heq) end.
    exists v2, p2. split_and!; [|done|done].
    eapply rtc_l; [|exact Hrun]. by split.
  - destruct (retry_body_normal v p) as (v2 & l & Hb & _). congruence.
Qed.

Lemma retry_steps_events s s' :
  rtc (retry_step host params) s s' →
  ∃ l, s'.2 = extend s.2 l ∧ Forall (retry_event params) l.
Proof.
  induction 1 as [s|s s1 s2 [_ Hb] _ (l2 & -> & Hl2)].
  - exists []. by rewrite extend_nil.
  - destruct (retry_body_normal s.1 s.2) as (v1 & l1 & Hb' & Hl1).
    rewrite Hb' in Hb. injection Hb as _ <-.
    exists (l1 ++ l2)%list. rewrite extend_extend. split; [done|].
    by apply Forall_app.
Qed.

(** [retry] always returns, and what it adds to the process are events of
    the loop: the exit code is untouched. *)
Lemma retry_returns p :
  ∃ n l, retry host params p = (Normal n, extend p l) ∧ Forall (retry_event params) l.
Proof.
  unfold retry.
  destruct (retry_loop_run retry_init p) as (v & p' & Hrun & _ & ->).
  apply retry_steps_events in Hrun as (l & Hl & Hev). simpl in Hl. subst p'.
  by exists (currTry v), l.
Qed.

End Loop.

(** The region that [params] holds plays no part in the loop. *)
Lemma retry_loop_region host params r v p :
  retry_loop host (set_region params r) v p = retry_loop host params v p.
Proof.
  funelim (retry_loop host params v p); rewrite retry_loop_step.
  all: change (retry_cond (set_region params r) v) with (retry_cond params v).
  all: change (retry_body host (set_region params r) v p)
         with (retry_body host params v p).
  all: try match goal with H : retry_cond _ _ = _ |- _ => rewrite H end.
  all: try match goal with H : retry_body _ _ _ _ = _ |- _ => rewrite H end.
  all: done.
Qed.

(** ** Counting the attempts *)

Section Attempts.

Context (host : Host) (params : Params) (connection : ECS) (m : Z).
Hypothesis Hconnection : ecsConnection params = Some connection.
Hypothesis Hretries : retries params = Num m.

Lemma waits_round_stable p v :
  waits (extend p (round_stable params connection v)) = S (waits p).
Proof.
  unfold round_stable. rewrite <- extend_extend, waits_extend, waits_traced by done.
  simpl. lia.
Qed.

Lemma waits_round_failed p v err :
  waits (extend p (round_failed host params connection v err)) = S (waits p).
Proof.
  unfold round_failed.
  rewrite <- extend_extend, <- extend_extend, waits_traced by done.
  rewrite waits_extend, waits_traced by done. simpl. lia.
Qed.

Lemma retry_cond_running c :
  retry_cond params {| currTry := c; isStable := false |} = (c <=? m).
Proof. unfold retry_cond. rewrite Hretries. simpl. by rewrite andb_true_r. Qed.

(** [j] rejected checks in a row move the counter [j] up, as long as the
    budget covers them. *)
Lemma retry_loop_failures (j : nat) c p :
  c + Z.of_nat j <= m + 1 →
  (∀ i, (i < j)%nat → wait_reply host (waits p + i)%nat ≠ None) →
  ∃ p', retry_loop host params {| currTry := c; isStable := false |} p
        = retry_loop host params {| currTry := c + Z.of_nat j; isStable := false |} p'
        ∧ waits p' = (waits p + j)%nat.
Proof.
  revert c p. induction j as [|j IH]; intros c p Hc Hfail.
  - exists p. split; [|lia]. do 2 f_equal. lia.
  - rewrite retry_loop_step, retry_cond_running.
    replace (c <=? m) with true by (symmetry; apply Z.leb_le; lia).
    rewrite (retry_body_eq host params connection) by done.
    destruct (wait_reply host (waits p)) as [err|] eqn:Hw; last first.
    { specialize (Hfail 0%nat ltac:(lia)). by rewrite Nat.add_0_r in Hfail. }
    simpl.
    destruct (IH (c + 1) (extend p (round_failed host params connection
                {| currTry := c; isStable := false |} err))) as (p' & Heq & Hp').
    + lia.
    + intros i Hi. rewrite waits_round_failed.
      replace (S (waits p) + i)%nat with (waits p + S i)%nat by lia.
      apply Hfail. lia.
    + exists p'. rewrite Heq, Hp', waits_round_failed. split; [|lia].
      do 2 f_equal. lia.
Qed.

Lemma retry_loop_success c p :
  c <= m →
  wait_reply host (waits p) = None →
  ∃ p', retry_loop host params {| currTry := c; isStable := false |} p
        = (Normal c, p')
        ∧ waits p' = S (waits p).
Proof.
  intros Hc Hw. rewrite retry_loop_step, retry_cond_running.
  replace (c <=? m) with true by (symmetry; apply Z.leb_le; lia).
  rewrite (retry_body_eq host params connection), Hw by done.
  rewrite retry_loop_step. unfold retry_cond; simpl. rewrite andb_false_r.
  eexists. split; [done|]. apply waits_round_stable.
Qed.

Lemma retry_loop_exhausted c p :
  m < c →
  retry_loop host params {| currTry := c; isStable := false |} p = (Normal c, p).
Proof.
  intros Hc. rewrite retry_loop_step, retry_cond_running.
  by replace (c <=? m) with false by (symmetry; apply Z.leb_gt; lia).
Qed.

End Attempts.

(** C1.  When the checks of attempts 1 to k-1 reject and the check of attempt
    k resolves, for some k between 1 and the number of retries, [retry]
    returns k and has started exactly k checks.  In particular, when every
    check resolves, it returns 1 after exactly one check. *)
Theorem retry_first_success host params connection m p :
  ecsConnection params = Some connection →
  retries params = Num m →
  1 <= m →
  (∀ k : nat, (1 ≤ k)%nat → Z.of_nat k <= m →
     (∀ i, (1 ≤ i < k)%nat → attempt host p i ≠ None) →
     attempt host p k = None →
     ∃ p', retry host params p = (Normal (Z.of_nat k), p')
           ∧ waits p' = (waits p + k)%nat)
  ∧ ((∀ i, wait_reply host i = None) →
     ∃ p', retry host params p = (Normal 1, p')
           ∧ waits p' = (waits p + 1)%nat).
Proof.
  intros Hc Hr Hm.
  assert (Hk : ∀ k : nat, (1 ≤ k)%nat → Z.of_nat k <= m →
     (∀ i, (1 ≤ i < k)%nat → attempt host p i ≠ None) →
     attempt host p k = None →
     ∃ p', retry host params p = (Normal (Z.of_nat k), p')
           ∧ waits p' = (waits p + k)%nat).
  { intros k Hk1 Hkm Hfail Hok. unfold retry, retry_init.
    destruct (retry_loop_failures host params connection m Hc Hr (pred k) 1 p)
      as (p1 & Heq & Hp1).
    - lia.
    - intros i Hi. apply (Hfail (S i)). lia.
    - rewrite Heq. replace (1 + Z.of_nat (pred k)) with (Z.of_nat k) by lia.
      destruct (retry_loop_success host params connection m Hc Hr (Z.of_nat k) p1)
        as (p2 & Heq2 & Hp2); [done| |].
      + rewrite Hp1. exact Hok.
      + exists p2. split; [done|]. lia. }
  split; [exact Hk|].
  intros Hall. apply (Hk 1%nat); [lia|lia| |apply Hall].
  intros i Hi. lia.
Qed.

(** C2.  When the check rejects on every attempt the budget allows, [retry]
    returns the number of retries plus one and has started exactly as many
    checks as there are retries. *)
Theorem retry_always_failing host params connection m p :
  ecsConnection params = Some connection →
  retries params = Num m →
  1 <= m →
  (∀ i, (1 ≤ i)%nat → Z.of_nat i <= m → attempt host p i ≠ None) →
  ∃ p', retry host params p = (Normal (m + 1), p')
        ∧ waits p' = (waits p + Z.to_nat m)%nat.
Proof.
  intros Hc Hr Hm Hfail. unfold retry, retry_init.
  destruct (retry_loop_failures host params connection m Hc Hr (Z.to_nat m) 1 p)
    as (p1 & Heq & Hp1).
  - lia.
  - intros i Hi. apply (Hfail (S i)); lia.
  - rewrite Heq. replace (1 + Z.of_nat (Z.to_nat m)) with (m + 1) by lia.
    exists p1. split; [|done].
    apply (retry_loop_exhausted host params m Hr). lia.
Qed.

(** ** The invariant of the loop *)

Section Invariant.

Context (host : Host) (params : Params) (connection : ECS) (m : Z).
Hypothesis Hconnection : ecsConnection params = Some connection.
Hypothesis Hretries : retries params = Num m.
Hypothesis Hm : 1 <= m.

Lemma counter_invariant_init p0 : counter_invariant host m p0 (retry_init, p0).
Proof.
  unfold counter_invariant; simpl. split_and!; [lia|lia|lia|].
  intros i Hi1 Hi2. lia.
Qed.

Lemma counter_invariant_step p0 s s' :
  counter_invariant host m p0 s →
  retry_step host params s s' →
  counter_invariant host m p0 s'.
Proof.
  destruct s as [[c st] p], s' as [v' p'].
  unfold retry_step, counter_invariant at 1; simpl.
  intros [Hc Hinv] [Hcond Hbody]. revert Hcond Hinv. unfold retry_cond; simpl.
  rewrite Hretries; simpl. intros [Hle Hst]%andb_true_iff.
  apply negb_true_iff in Hst; subst st. apply Z.leb_le in Hle.
  intros [Hw Hrej].
  rewrite (retry_body_eq host params connection) in Hbody by done.
  destruct (wait_reply host (waits p)) as [err|] eqn:Hreply;
    injection Hbody as <- <-; unfold counter_invariant; simpl.
  - split; [lia|]. rewrite waits_round_failed by done. split; [lia|].
    intros i Hi1 Hi2. destruct (decide (Z.of_nat i = c)) as [Hic|Hic].
    + unfold attempt. replace (waits p0 + pred i)%nat with (waits p) by lia.
      by rewrite Hreply.
    + apply Hrej; lia.
  - split; [lia|]. rewrite waits_round_stable by done. split_and!; [lia|lia|].
    unfold attempt. by replace (waits p0 + pred (Z.to_nat c))%nat with (waits p) by lia.
Qed.

Lemma counter_invariant_reachable p0 s :
  rtc (retry_step host params) (retry_init, p0) s →
  counter_invariant host m p0 s.
Proof.
  intros Hrun. apply rtc_nsteps in Hrun as [n Hrun].
  revert s Hrun. induction n as [|n IH]; intros s Hrun.
  - inversion Hrun; subst. apply counter_invariant_init.
  - apply nsteps_inv_r in Hrun as (s1 & Hrun & Hstep).
    eapply counter_invariant_step; [|exact Hstep]. by apply IH.
Qed.

End Invariant.

(** C6.  In a [retry] with at least one retry, every state of the loop
    satisfies [counter_invariant]: the counter never exceeds retries + 1, and
    when a check has resolved the counter is the number of that check.  The
    loop ends in such a state and returns its counter, which is exactly
    retries + 1 when no check resolved. *)
Theorem retry_counter_invariant host params connection m p0 :
  ecsConnection params = Some connection →
  retries params = Num m →
  1 <= m →
  (∀ s, rtc (retry_step host params) (retry_init, p0) s →
        counter_invariant host m p0 s)
  ∧ ∃ v p, rtc (retry_step host params) (retry_init, p0) (v, p)
           ∧ retry_cond params v = false
           ∧ retry host params p0 = (Normal (currTry v), p)
           ∧ (isStable v = false → currTry v = m + 1)
           ∧ (isStable v = true →
              attempt host p0 (Z.to_nat (currTry v)) = None
              ∧ waits p = (waits p0 + Z.to_nat (currTry v))%nat).
Proof.
  intros Hc Hr Hm. split.
  - intros s. by apply (counter_invariant_reachable host params connection m).
  - destruct (retry_loop_run host params retry_init p0) as (v & p & Hrun & Hend & Heq).
    exists v, p. split_and!; [done|done|done| |].
    + apply (counter_invariant_reachable host params connection m Hc Hr Hm) in Hrun.
      destruct Hrun as [Hb _]. simpl in Hb. intros Hst.
      revert Hend. unfold retry_cond. rewrite Hr, Hst; simpl.
      rewrite andb_true_r. intros Hgt%Z.leb_gt. lia.
    + apply (counter_invariant_reachable host params connection m Hc Hr Hm) in Hrun.
      destruct Hrun as [_ Hs]. simpl in Hs. intros Hst. rewrite Hst in Hs.
      by destruct Hs as (_ & Hw & Ha).
Qed.

(** ** The steps of [main] *)

Lemma reports_extend p l :
  reports (extend p l) = (reports p ++ List.filter is_report l)%list.
Proof. unfold reports, extend; simpl. by rewrite List.filter_app. Qed.

Lemma retry_events_no_report params l :
  Forall (retry_event params) l → List.filter is_report l = [].
Proof.
  induction 1 as [|e l He _ IH]; [done|]. simpl.
  by destruct e; simpl in *; try done.
Qed.

Lemma truthy_true s : truthy s = true → s ≠ "".
Proof. unfold truthy. intros H%negb_true_iff. by apply String.eqb_neq. Qed.

Lemma truthy_false s : truthy s = false → s = "".
Proof. unfold truthy. intros H%negb_false_iff. by apply String.eqb_eq. Qed.

Section Main.

Context (host : Host).

Lemma core_setFailed_eq msg p :
  core_setFailed msg p
  = (Normal (), {| events := events p ++ [SetFailed msg]; exitCode := 1 |}).
Proof. done. Qed.

Lemma extractParams_inv p c p' :
  extractParams host p = (c, p') →
  match c with
  | Throw e =>
      p' = p ∧ JSON_parse host (core_getInput host "ecs-services") = Throw e
  | Normal None =>
      p' = {| events := events p ++ [SetFailed missing_message]; exitCode := 1 |}
      ∧ (core_getInput host "role-to-assume" = ""
         ∨ core_getInput host "aws-region" = ""
           ∧ truthy_opt (AWS_REGION host) = false)
  | Normal (Some params) =>
      p' = p
      ∧ JSON_parse host (core_getInput host "ecs-services") = Normal (services params)
      ∧ cluster params = core_getInput host "ecs-cluster"
      ∧ retries params = parseInt (core_getInput host "retries")
      ∧ assumeRole params = core_getInput host "role-to-assume"
      ∧ ecsConnection params = None
      ∧ core_getInput host "role-to-assume" ≠ ""
      ∧ (core_getInput host "aws-region" ≠ "" ∨ truthy_opt (AWS_REGION host) = true)
  end.
Proof.
  unfold extractParams, mbind, Act_bind, of_completion.
  destruct (JSON_parse host (core_getInput host "ecs-services")) as [sv|e];
    [|by intros [= <- <-]].
  destruct (truthy (core_getInput host "role-to-assume")) eqn:Hrole; simpl.
  - apply truthy_true in Hrole.
    destruct (truthy (core_getInput host "aws-region")) eqn:Hregion; simpl.
    + rewrite Hregion; simpl. apply truthy_true in Hregion.
      intros [= <- <-]. split_and!; try done. by left.
    + apply truthy_false in Hregion.
      destruct (truthy_opt (AWS_REGION host)) eqn:Henv; simpl.
      * intros [= <- <-]. split_and!; try done. by right.
      * intros [= <- <-]. split; [done|]. by right.
  - apply truthy_false in Hrole. intros [= <- <-]. split; [done|]. by left.
Qed.

Lemma assumeRoleInAccount_inv p c p' :
  assumeRoleInAccount host p = (c, p') →
  p' = extend p [StsSend (stsClient host) (assume_command host)]
  ∧ match c with
    | Normal creds => cred_region creds = "eu-central-1"
    | Throw e =>
        sts_reply host (stsClient host) (assume_command host) = Throw e
        ∨ ∃ r, sts_reply host (stsClient host) (assume_command host) = Normal r
               ∧ Credentials r = None
    end.
Proof.
  unfold assumeRoleInAccount, stsClient_send, mbind, Act_bind, of_completion.
  rewrite emit_extend. fold (assume_command host).
  destruct (sts_reply host (stsClient host) (assume_command host)) as [r|e] eqn:Hr.
  - destruct (Credentials r) as [k|] eqn:Hk.
    + intros [= <- <-]. done.
    + intros [= <- <-]. split; [done|]. right. by exists r.
  - intros [= <- <-]. split; [done|]. by left.
Qed.

Lemma createEcsConnection_inv creds p c p' :
  createEcsConnection host creds p = (c, p') →
  ∃ options, p' = extend p [NewECS options]
       ∧ ecs_region options = cred_region creds
       ∧ match c with
         | Normal connection => connection = options
         | Throw e => ecs_refuses host options = Some e
         end.
Proof.
  unfold createEcsConnection, new_ECS, mbind, Act_bind. rewrite emit_extend.
  destruct (ecs_refuses host _) as [e|] eqn:He; intros [= <- <-];
    eexists; split_and!; done.
Qed.

Lemma main_verdict_eq params n p :
  main_verdict params n p =
  (Normal (),
   if js_gt (Num n) (retries params) then
     {| events := events p
                  ++ (if verbose params
                      then [ConsoleError (not_stable_message params)] else [])
                  ++ [SetFailed (not_stable_message params)];
        exitCode := 1 |}
   else
     extend p ((if verbose params
                then [ConsoleLog ("Service is stable after " +:+ pretty n +:+ " retries!")]
                else [])
               ++ [SetOutput "retries" (pretty n)])).
Proof.
  unfold main_verdict, mbind, Act_bind, console_error, console_log, core_setOutput.
  fold (not_stable_message params).
  destruct (js_gt (Num n) (retries params)); rewrite when_extend.
  - rewrite core_setFailed_eq. unfold extend; simpl. by rewrite <- app_assoc.
  - rewrite emit_extend. by rewrite extend_extend.
Qed.

(** [main], step by step: every exception ends in the one handler. *)
Lemma main_unfold p :
  main host p =
  match extractParams host p with
  | (Throw e, p1) => core_setFailed (message e) p1
  | (Normal o, p1) =>
      match assumeRoleInAccount host p1 with
      | (Throw e, p2) => core_setFailed (message e) p2
      | (Normal creds, p2) =>
          match o with
          | None => (Normal (), p2)
          | Some params =>
              match createEcsConnection host creds p2 with
              | (Throw e, p3) => core_setFailed (message e) p3
              | (Normal connection, p3) =>
                  match retry host (set_ecsConnection params connection) p3 with
                  | (Throw e, p4) => core_setFailed (message e) p4
                  | (Normal n, p4) =>
                      main_verdict (set_ecsConnection params connection) n p4
                  end
              end
          end
      end
  end.
Proof.
  unfold main, try_catch, mbind, Act_bind.
  destruct (extractParams host p) as [[o|e] p1]; [|done].
  destruct (assumeRoleInAccount host p1) as [[creds|e] p2]; [|done].
  destruct o as [params|]; [|done].
  destruct (createEcsConnection host creds p2) as [[connection|e] p3]; [|done].
  destruct (retry host (set_ecsConnection params connection) p3) as [[n|e] p4]; [|done].
  by rewrite main_verdict_eq.
Qed.

(** A run in which the parameters are complete, the role is granted and the
    connection is built reaches [retry] with no report made and no check
    started, and ends with the verdict on what [retry] returns. *)
Lemma main_reaches_retry params creds connection p1 p2 :
  extractParams host start = (Normal (Some params), start) →
  assumeRoleInAccount host start = (Normal creds, p1) →
  createEcsConnection host creds p1 = (Normal connection, p2) →
  reports p2 = [] ∧ waits p2 = 0%nat ∧ exitCode p2 = 0
  ∧ ∃ n l, retry host (set_ecsConnection params connection) p2
             = (Normal n, extend p2 l)
           ∧ Forall (retry_event (set_ecsConnection params connection)) l
           ∧ main host start
             = main_verdict (set_ecsConnection params connection) n (extend p2 l).
Proof.
  intros Hx Ha Hc.
  destruct (assumeRoleInAccount_inv _ _ _ Ha) as [-> _].
  destruct (createEcsConnection_inv _ _ _ _ Hc) as (options & -> & _ & _).
  split_and!; [done|done|done|].
  destruct (retry_returns host (set_ecsConnection params connection)
              (extend (extend start [StsSend (stsClient host) (assume_command host)])
                      [NewECS options])) as (n & l & Hr & Hl).
  exists n, l. split_and!; [done|done|].
  by rewrite main_unfold, Hx, Ha, Hc, Hr.
Qed.

End Main.

Lemma reports_elem p e : e ∈ events p → is_report e = true → e ∈ reports p.
Proof. intros He Hr. unfold reports. apply list_elem_of_In, filter_In. by rewrite <- list_elem_of_In. Qed.

(** ** The verdict *)

Section Verdict.

Context (host : Host) (params : Params) (creds : credentials) (connection : ECS).
Context (p1 p2 : Process).
Hypothesis Hparams : extractParams host start = (Normal (Some params), start).
Hypothesis Hcreds : assumeRoleInAccount host start = (Normal creds, p1).
Hypothesis Hconnection : createEcsConnection host creds p1 = (Normal connection, p2).

(** The count [retry] returns is at least 1; when it is within the retries,
    it is the number of checks made. *)
Lemma retry_count n p3 :
  retry host (set_ecsConnection params connection) p2 = (Normal n, p3) →
  reports p3 = [] ∧ exitCode p3 = 0 ∧ 1 <= n
  ∧ (js_le (Num n) (retries params) = true → Z.of_nat (waits p3) = n).
Proof.
  intros Hr.
  destruct (main_reaches_retry host params creds connection p1 p2)
    as (Hrep & Hw & Hx & n' & l & Hr' & Hl & _); [done..|].
  rewrite Hr in Hr'. injection Hr' as <- ->.
  rewrite reports_extend, Hrep, (retry_events_no_report _ _ Hl).
  split_and!; [done|done| |].
  - destruct (retry_loop_run host (set_ecsConnection params connection) retry_init p2)
      as (v & p & Hrun & _ & Heq).
    unfold retry in Hr. rewrite Hr in Heq. injection Heq as -> _.
    clear -Hrun. apply rtc_nsteps in Hrun as [k Hrun].
    revert v p Hrun. induction k as [|k IH]; intros v p Hrun.
    + inversion Hrun; subst. simpl. lia.
    + apply nsteps_inv_r in Hrun as ([v1 q1] & Hrun & _ & Hbody). simpl in Hbody.
      specialize (IH _ _ Hrun).
      rewrite (retry_body_eq host _ connection) in Hbody by done.
      destruct (wait_reply host (waits q1)); injection Hbody as <- _; simpl; lia.
  - unfold js_le. destruct (retries params) as [|m] eqn:Hm; [done|].
    intros Hle%Z.leb_le.
    destruct (decide (1 <= m)) as [H1|H1].
    + destruct (retry_loop_run host (set_ecsConnection params connection) retry_init p2)
        as (v & p & Hrun & Hend & Heq).
      unfold retry in Hr. rewrite Hr in Heq. injection Heq as -> ->.
      apply (counter_invariant_reachable host _ connection m) in Hrun; [|done..].
      destruct Hrun as [Hb Hs]. simpl in Hb, Hs.
      destruct (isStable v) eqn:Hst.
      * destruct Hs as (_ & -> & _). lia.
      * revert Hend. unfold retry_cond. simpl. rewrite Hm, Hst; simpl.
        rewrite andb_true_r. intros Hgt%Z.leb_gt. lia.
    + unfold retry, retry_init in Hr.
      rewrite (retry_loop_exhausted host _ m) in Hr by (done || lia).
      injection Hr as <- _. lia.
Qed.

End Verdict.

(** C4.  In a run that reaches [retry], [main] reports a failure exactly when
    the count that [retry] returned is greater than the configured retries.
    The report is then the single one of the run, its message is
    "Service is not stable after N retries!" where N is the configured number
    of retries, and the exit code is 1.  Otherwise no failure is set and the
    exit code stays 0. *)
Theorem main_failure_signal host params creds connection p1 p2 n p3 :
  extractParams host start = (Normal (Some params), start) →
  assumeRoleInAccount host start = (Normal creds, p1) →
  createEcsConnection host creds p1 = (Normal connection, p2) →
  retry host (set_ecsConnection params connection) p2 = (Normal n, p3) →
  ∃ p, main host start = (Normal (), p)
       ∧ if js_gt (Num n) (retries params)
         then reports p
              = [SetFailed ("Service is not stable after "
                            +:+ number_toString (retries params) +:+ " retries!")]
              ∧ exitCode p = 1
         else (∀ msg, SetFailed msg ∉ events p) ∧ exitCode p = 0.
Proof.
  intros Hx Ha Hc Hr.
  destruct (retry_count host params creds connection p1 p2 Hx Ha Hc n p3 Hr)
    as (Hrep & Hexit & _ & _).
  rewrite main_unfold, Hx, Ha, Hc, Hr, main_verdict_eq.
  unfold not_stable_message.
  change (retries (set_ecsConnection params connection)) with (retries params).
  change (verbose (set_ecsConnection params connection)) with (verbose params).
  eexists. split; [done|].
  destruct (js_gt (Num n) (retries params)); cbv iota.
  - split; [|done]. unfold reports in *. cbn [events].
    rewrite !List.filter_app, Hrep.
    by destruct (verbose params).
  - split; [|done]. intros msg Hin. apply reports_elem in Hin; [|done].
    rewrite reports_extend, Hrep in Hin. simpl in Hin.
    rewrite List.filter_app in Hin.
    destruct (verbose params); simpl in Hin;
      apply list_elem_of_singleton in Hin; done.
Qed.

(** C5.  In a run that reaches [retry] and gets from it a count within the
    configured retries, [main] makes exactly one report: the output [retries]
    with the decimal text of that count, which is the number of checks the
    run made.  The exit code is 0. *)
Theorem main_success_output host params creds connection p1 p2 n p3 :
  extractParams host start = (Normal (Some params), start) →
  assumeRoleInAccount host start = (Normal creds, p1) →
  createEcsConnection host creds p1 = (Normal connection, p2) →
  retry host (set_ecsConnection params connection) p2 = (Normal n, p3) →
  js_le (Num n) (retries params) = true →
  ∃ p, main host start = (Normal (), p)
       ∧ reports p = [SetOutput "retries" (pretty n)]
       ∧ Z.of_nat (waits p) = n
       ∧ exitCode p = 0.
Proof.
  intros Hx Ha Hc Hr Hle.
  destruct (retry_count host params creds connection p1 p2 Hx Ha Hc n p3 Hr)
    as (Hrep & Hexit & _ & Hn). specialize (Hn Hle).
  rewrite main_unfold, Hx, Ha, Hc, Hr, main_verdict_eq.
  change (retries (set_ecsConnection params connection)) with (retries params).
  change (verbose (set_ecsConnection params connection)) with (verbose params).
  assert (js_gt (Num n) (retries params) = false) as ->.
  { revert Hle. unfold js_le, js_gt. destruct (retries params); [done|].
    intros Hle%Z.leb_le. apply Z.ltb_ge. lia. }
  eexists. split; [done|]. split_and!.
  - rewrite reports_extend, Hrep. simpl. rewrite List.filter_app.
    by destruct (verbose params).
  - rewrite waits_extend, List.filter_app.
    destruct (verbose params); simpl; lia.
  - done.
Qed.

(** C9.  When the [retries] input does not start with a number, so that
    [parseInt] gives [NaN], the condition of the loop is false at once:
    [retry] returns 1 and leaves the process as it was, no check started.
    Since [1 > NaN] is false as well, a run that reaches [retry] ends with the
    output [retries] set to "1", exit code 0 and no check made. *)
Theorem retries_not_a_number host :
  (∀ params p, retries params = NaN → retry host params p = (Normal 1, p))
  ∧ (∀ params creds connection p1 p2,
       parseInt (core_getInput host "retries") = NaN →
       extractParams host start = (Normal (Some params), start) →
       assumeRoleInAccount host start = (Normal creds, p1) →
       createEcsConnection host creds p1 = (Normal connection, p2) →
       ∃ p, main host start = (Normal (), p)
            ∧ reports p = [SetOutput "retries" "1"]
            ∧ waits p = 0%nat
            ∧ exitCode p = 0).
Proof.
  assert (Hloop : ∀ params p, retries params = NaN →
                              retry host params p = (Normal 1, p)).
  { intros params p Hnan. unfold retry. rewrite retry_loop_step.
    unfold retry_cond. by rewrite Hnan. }
  split; [exact Hloop|].
  intros params creds connection p1 p2 Hnan Hx Ha Hc.
  destruct (extractParams_inv _ _ _ _ Hx) as (_ & _ & _ & Hretries & _).
  rewrite Hnan in Hretries.
  destruct (main_reaches_retry host params creds connection p1 p2 Hx Ha Hc)
    as (Hrep & Hw & Hexit & _).
  rewrite main_unfold, Hx, Ha, Hc.
  rewrite (Hloop (set_ecsConnection params connection) p2 Hretries), main_verdict_eq.
  change (retries (set_ecsConnection params connection)) with (retries params).
  rewrite Hretries. cbn [js_gt].
  eexists. split; [done|]. split_and!.
  - rewrite reports_extend, Hrep, List.filter_app.
    by destruct (verbose (set_ecsConnection params connection)).
  - rewrite waits_extend, Hw, List.filter_app.
    by destruct (verbose (set_ecsConnection params connection)).
  - done.
Qed.

(** ** What a run can do *)

Lemma main_event_extend host p l :
  Forall (main_event host) (events p) → Forall (main_event host) l →
  Forall (main_event host) (events (extend p l)).
Proof. intros Hp Hl. by apply Forall_app. Qed.

Lemma main_event_setFailed host msg p :
  Forall (main_event host) (events p) →
  Forall (main_event host) (events (core_setFailed msg p).2).
Proof. intros Hp. apply Forall_app. split; [done|]. by repeat constructor. Qed.

Lemma main_event_verdict host params n p :
  Forall (main_event host) (events p) →
  Forall (main_event host) (events (main_verdict params n p).2).
Proof.
  intros Hp. rewrite main_verdict_eq. cbn [snd].
  destruct (js_gt _ _); cbn [events extend]; rewrite !Forall_app;
    (split_and!; [done| |by repeat constructor]);
    by destruct (verbose params); repeat constructor.
Qed.

Lemma main_events host : Forall (main_event host) (events (main host start).2).
Proof.
  rewrite main_unfold.
  destruct (extractParams host start) as [[o|e] p0] eqn:Hx.
  2:{ apply main_event_setFailed.
      apply extractParams_inv in Hx as [-> _]. constructor. }
  assert (Hp0 : Forall (main_event host) (events p0)).
  { apply extractParams_inv in Hx. destruct o as [params|].
    - destruct Hx as [-> _]. constructor.
    - destruct Hx as [-> _]. by repeat constructor. }
  destruct (assumeRoleInAccount host p0) as [c p1] eqn:Ha.
  apply assumeRoleInAccount_inv in Ha as [-> Hregion].
  assert (Hp1 : Forall (main_event host)
                  (events (extend p0 [StsSend (stsClient host) (assume_command host)]))).
  { apply main_event_extend; [done|]. by repeat constructor. }
  destruct c as [creds|e]; [|by apply main_event_setFailed].
  destruct o as [params|]; [|done].
  apply extractParams_inv in Hx as (-> & Hsv & Hcl & _).
  destruct (createEcsConnection host creds _) as [c p2] eqn:Hc.
  apply createEcsConnection_inv in Hc as (options & -> & Ho & Hc).
  rewrite Hregion in Ho.
  match goal with |- context [NewECS options] =>
    assert (Hp2 : Forall (main_event host)
      (events (extend (extend start [StsSend (stsClient host) (assume_command host)])
                      [NewECS options])))
  end.
  { apply main_event_extend; [done|]. by repeat constructor. }
  destruct c as [connection|e]; [subst connection|by apply main_event_setFailed].
  destruct (retry_returns host (set_ecsConnection params options)
              (extend (extend start [StsSend (stsClient host) (assume_command host)])
                      [NewECS options])) as (n & l & -> & Hl).
  apply main_event_verdict, main_event_extend; [done|].
  rewrite Forall_forall in Hl |- *. intros e He. specialize (Hl e He).
  destruct e; try done. simpl in Hl |- *.
  destruct Hl as ([= <-] & -> & -> & ->). by rewrite <- Hcl.
Qed.

(** C8.  Every stability check of a run waits for [servicesStable] on the
    cluster of the [ecs-cluster] input and on the very value that
    [JSON.parse] returned for the [ecs-services] input.  So when that input
    is the text of the array of "svcA" and "svcB", parsed as the list of
    these two strings, every check is made on that list, in that order. *)
Theorem services_forwarded host :
  (∀ sv e,
     JSON_parse host (core_getInput host "ecs-services") = Normal sv →
     e ∈ events (main host start).2 → is_WaitFor e = true →
     ∃ connection,
       e = WaitFor connection "servicesStable" (core_getInput host "ecs-cluster") sv)
  ∧ (∀ e,
       core_getInput host "ecs-services"
       = "[" +:+ quoted "svcA" +:+ "," +:+ quoted "svcB" +:+ "]" →
       JSON_parse host (core_getInput host "ecs-services")
       = Normal (JArray [JString "svcA"; JString "svcB"]) →
       e ∈ events (main host start).2 → is_WaitFor e = true →
       ∃ connection,
         e = WaitFor connection "servicesStable" (core_getInput host "ecs-cluster")
               (JArray [JString "svcA"; JString "svcB"])).
Proof.
  assert (H : ∀ sv e,
     JSON_parse host (core_getInput host "ecs-services") = Normal sv →
     e ∈ events (main host start).2 → is_WaitFor e = true →
     ∃ connection,
       e = WaitFor connection "servicesStable" (core_getInput host "ecs-cluster") sv).
  { intros sv e Hsv He Hw.
    pose proof (main_events host) as Hall. rewrite Forall_forall in Hall.
    specialize (Hall e He). destruct e; try done. simpl in Hall.
    destruct Hall as (_ & -> & -> & Hsv'). rewrite Hsv in Hsv'.
    injection Hsv' as <-. by eexists. }
  split; [exact H|]. intros e _ Hsv. by apply H.
Qed.

(** C10.  The credentials that [assumeRoleInAccount] returns always carry the
    region 'eu-central-1', whatever the [aws-region] input and the answer of
    the identity provider, and [createEcsConnection] gives the connection
    the region of the credentials.  Hence every ECS connection that a run
    builds, and every connection it waits on, is for 'eu-central-1'.  The
    [aws-region] input is the region of the STS client and of no other
    client: the region kept in [params] changes nothing in [retry]. *)
Theorem ecs_region_is_constant host :
  (∀ p creds p', assumeRoleInAccount host p = (Normal creds, p') →
                 cred_region creds = "eu-central-1")
  ∧ (∀ creds p connection p',
       createEcsConnection host creds p = (Normal connection, p') →
       ecs_region connection = cred_region creds)
  ∧ (∀ e, e ∈ events (main host start).2 →
          match e with
          | NewECS options => ecs_region options = "eu-central-1"
          | WaitFor connection _ _ _ => ecs_region connection = "eu-central-1"
          | StsSend client _ => sts_region client = core_getInput host "aws-region"
          | _ => True
          end)
  ∧ (∀ params r p, retry host (set_region params r) p = retry host params p).
Proof.
  split_and!.
  - intros p creds p' Ha. by apply assumeRoleInAccount_inv in Ha as [_ Hr].
  - intros creds p connection p' Hc.
    by apply createEcsConnection_inv in Hc as (options & _ & Ho & ->).
  - intros e He. pose proof (main_events host) as Hall.
    rewrite Forall_forall in Hall. specialize (Hall e He).
    destruct e; try done; simpl in Hall.
    + by destruct Hall as [-> _].
    + by destruct Hall as [? _].
  - intros params r p. apply retry_loop_region.
Qed.

(** A run in which the role is missing reports the failure of the
    configuration first, then sends the AssumeRole command all the same; it
    ends there, or in the handler when the command is rejected. *)
Lemma main_missing_configuration host sv :
  JSON_parse host (core_getInput host "ecs-services") = Normal sv →
  core_getInput host "role-to-assume" = "" →
  ∃ l, events (main host start).2
       = SetFailed missing_message :: StsSend (stsClient host) (assume_command host) :: l
       ∧ (l = [] ∨ ∃ msg, l = [SetFailed msg])
       ∧ exitCode (main host start).2 = 1.
Proof.
  intros Hsv Hmissing. rewrite main_unfold.
  destruct (extractParams host start) as [[[params|]|e] p0] eqn:Hx;
    apply extractParams_inv in Hx.
  - by destruct Hx as (_ & _ & _ & _ & _ & _ & Hrole & _).
  - destruct Hx as [-> _].
    destruct (assumeRoleInAccount host _) as [[creds|e] p1] eqn:Ha;
      apply assumeRoleInAccount_inv in Ha as [-> _].
    + exists []. split_and!; [done|by left|done].
    + exists [SetFailed (message e)]. split_and!; [done|right; by eexists|done].
  - destruct Hx as [_ Hx]. by rewrite Hsv in Hx.
Qed.

(** ** The claims on examples *)

Example parseInt_digits : parseInt "3" = Num 3.
Proof. reflexivity. Qed.

Example parseInt_prefix : parseInt "-12 tries" = Num (-12).
Proof. reflexivity. Qed.

Example parseInt_empty : parseInt "" = NaN.
Proof. reflexivity. Qed.

Example parse_services :
  Demo.parse ("[" +:+ quoted "svcA" +:+ "," +:+ quoted "svcB" +:+ "]")
  = Normal (JArray [JString "svcA"; JString "svcB"]).
Proof. reflexivity. Qed.

(** [Demo.params] is what [main] hands to [retry] on the example hosts. *)
Example params_of_main replies :
  ∃ params,
    extractParams (Demo.host "3" Demo.role "eu-west-1" replies) start
    = (Normal (Some params), start)
    ∧ set_ecsConnection params Demo.connection = Demo.params (Num 3).
Proof. eexists. split; reflexivity. Qed.

(** The whole run of the scenario "three retries, two checks time out, the
    third finds the services stable". *)
Example main_third_time_lucky :
  main (Demo.host "3" Demo.role "eu-west-1" (Demo.fails_first 2)) start
  = (Normal (),
     {| events :=
          [StsSend {| sts_region := "eu-west-1" |}
                   {| RoleArn := Demo.role; RoleSessionName := "ecs-wait-action" |};
           NewECS Demo.connection;
           wait_of (Demo.params (Num 3)) Demo.connection;
           wait_of (Demo.params (Num 3)) Demo.connection;
           wait_of (Demo.params (Num 3)) Demo.connection;
           SetOutput "retries" "3"];
        exitCode := 0 |}).
Proof. vm_compute. reflexivity. Qed.

(** C3.  With the role missing, the run sets the failure of the
    configuration and then sends the AssumeRole command to the identity
    provider: the check of the parameters comes after the call. *)
Theorem missing_configuration_still_assumes :
  main (Demo.host "2" "" "eu-west-1" Demo.always_fails) start
  = (Normal (),
     {| events :=
          [SetFailed "AWS credentials were not found in inputs or environment variables.";
           StsSend {| sts_region := "eu-west-1" |}
                   {| RoleArn := ""; RoleSessionName := "ecs-wait-action" |};
           SetFailed "1 validation error detected: Value at 'roleArn' failed to satisfy constraint"];
        exitCode := 1 |}).
Proof. vm_compute. reflexivity. Qed.

Lemma retry_first_success_witness :
  ∃ p', retry (Demo.host "3" Demo.role "eu-west-1" (Demo.fails_first 2))
              (Demo.params (Num 3)) start
        = (Normal 3, p')
        ∧ waits p' = 3%nat.
Proof.
  destruct (retry_first_success
              (Demo.host "3" Demo.role "eu-west-1" (Demo.fails_first 2))
              (Demo.params (Num 3)) Demo.connection 3 start
              eq_refl eq_refl ltac:(lia)) as [H _].
  apply (H 3%nat); [lia|lia| |reflexivity].
  intros [|[|[|i]]] Hi; try lia; discriminate.
Defined.

Lemma retry_always_failing_witness :
  ∃ p', retry (Demo.host "2" Demo.role "eu-west-1" Demo.always_fails)
              (Demo.params (Num 2)) start
        = (Normal 3, p')
        ∧ waits p' = 2%nat.
Proof.
  apply (retry_always_failing
           (Demo.host "2" Demo.role "eu-west-1" Demo.always_fails)
           (Demo.params (Num 2)) Demo.connection 2 start);
    [reflexivity|reflexivity|lia|].
  intros i _ _. discriminate.
Defined.

Lemma retry_counter_invariant_witness :
  ∃ v p, retry (Demo.host "3" Demo.role "eu-west-1" (Demo.fails_first 2))
               (Demo.params (Num 3)) start
         = (Normal (currTry v), p)
         ∧ (isStable v = false → currTry v = 4).
Proof.
  destruct (retry_counter_invariant
              (Demo.host "3" Demo.role "eu-west-1" (Demo.fails_first 2))
              (Demo.params (Num 3)) Demo.connection 3 start
              eq_refl eq_refl ltac:(lia)) as [_ (v & p & _ & _ & Hr & Hx & _)].
  by exists v, p.
Defined.

Lemma main_failure_signal_witness :
  ∃ p, main (Demo.host "2" Demo.role "eu-west-1" Demo.always_fails) start
       = (Normal (), p)
       ∧ reports p = [SetFailed "Service is not stable after 2 retries!"]
       ∧ exitCode p = 1.
Proof.
  destruct (main_failure_signal
              (Demo.host "2" Demo.role "eu-west-1" Demo.always_fails)
              _ _ _ _ _ _ _ eq_refl eq_refl eq_refl eq_refl) as (p & Hp & H).
  by exists p.
Defined.

Lemma main_success_output_witness :
  ∃ p, main (Demo.host "3" Demo.role "eu-west-1" (Demo.fails_first 2)) start
       = (Normal (), p)
       ∧ reports p = [SetOutput "retries" "3"]
       ∧ Z.of_nat (waits p) = 3
       ∧ exitCode p = 0.
Proof.
  apply (main_success_output
           (Demo.host "3" Demo.role "eu-west-1" (Demo.fails_first 2))
           _ _ _ _ _ _ _ eq_refl eq_refl eq_refl eq_refl).
  reflexivity.
Defined.

Lemma retries_not_a_number_witness :
  parseInt "soon" = NaN
  ∧ ∃ p, main (Demo.host "soon" Demo.role "eu-west-1" Demo.always_fails) start
         = (Normal (), p)
         ∧ reports p = [SetOutput "retries" "1"]
         ∧ waits p = 0%nat
         ∧ exitCode p = 0.
Proof.
  split; [reflexivity|].
  apply (proj2 (retries_not_a_number
                  (Demo.host "soon" Demo.role "eu-west-1" Demo.always_fails))
           _ _ _ _ _ eq_refl eq_refl eq_refl eq_refl).
Defined.

Lemma services_forwarded_witness :
  WaitFor Demo.connection "servicesStable" "cluster"
    (JArray [JString "svcA"; JString "svcB"])
  ∈ events (main (Demo.host "3" Demo.role "eu-west-1" (Demo.fails_first 2)) start).2
  ∧ ∃ connection,
      WaitFor Demo.connection "servicesStable" "cluster"
        (JArray [JString "svcA"; JString "svcB"])
      = WaitFor connection "servicesStable"
          (core_getInput (Demo.host "3" Demo.role "eu-west-1" (Demo.fails_first 2))
             "ecs-cluster")
          (JArray [JString "svcA"; JString "svcB"]).
Proof.
  assert (Hin : WaitFor Demo.connection "servicesStable" "cluster"
                  (JArray [JString "svcA"; JString "svcB"])
                ∈ events (main (Demo.host "3" Demo.role "eu-west-1"
                                  (Demo.fails_first 2)) start).2).
  { vm_compute. apply list_elem_of_In. simpl. tauto. }
  split; [exact Hin|].
  apply (proj2 (services_forwarded
                  (Demo.host "3" Demo.role "eu-west-1" (Demo.fails_first 2))));
    [reflexivity|reflexivity|exact Hin|reflexivity].
Defined.

Lemma ecs_region_is_constant_witness :
  core_getInput (Demo.host "1" Demo.role "eu-west-1" (Demo.fails_first 0)) "aws-region"
  = "eu-west-1"
  ∧ NewECS Demo.connection
    ∈ events (main (Demo.host "1" Demo.role "eu-west-1" (Demo.fails_first 0)) start).2
  ∧ ecs_region Demo.connection = "eu-central-1".
Proof.
  assert (Hin : NewECS Demo.connection
                ∈ events (main (Demo.host "1" Demo.role "eu-west-1"
                                  (Demo.fails_first 0)) start).2).
  { vm_compute. apply list_elem_of_In. simpl. tauto. }
  split_and!; [reflexivity|exact Hin|].
  exact (proj1 (proj2 (proj2 (ecs_region_is_constant
                         (Demo.host "1" Demo.role "eu-west-1" (Demo.fails_first 0)))))
           (NewECS Demo.connection) Hin).
Defined.

(** * Further properties *)

(** ** An induction principle for the loop *)

(** To prove [P] of every run of the loop: prove it when the condition
    fails, and carry it back over one round. *)
Lemma retry_loop_rounds host params
    (P : LoopVars → Process → completion Z * Process → Prop) :
  (∀ v p, retry_cond params v = false → P v p (Normal (currTry v), p)) →
  (∀ v p v' p' r,
     retry_cond params v = true →
     retry_body host params v p = (Normal v', p') →
     P v' p' r → P v p r) →
  ∀ v p, P v p (retry_loop host params v p).
Proof.
  intros Hend Hround v p. funelim (retry_loop host params v p).
  - by apply Hend.
  - eapply Hround; [done|done|].
    match goal with IH : ∀ P, _ |- _ => by apply IH end.
  - destruct (retry_body_normal host params v p) as (v2 & l & Hb & _). congruence.
Qed.

(** One round, whether [params] hold a connection or not: the counter moves
    as the outcome of the check says, and the only call added is the wait. *)
Lemma retry_body_round host params v p :
  ∃ l, retry_body host params v p
       = (Normal (match ecsConnection params, wait_reply host (waits p) with
                  | Some _, None => {| currTry := currTry v; isStable := true |}
                  | _, _ => {| currTry := currTry v + 1; isStable := isStable v |}
                  end),
          extend p l)
       ∧ calls l = match ecsConnection params with
                   | Some c => [wait_of params c]
                   | None => []
                   end
       ∧ (verbose params = false → calls l = l)
       ∧ (verbose params = true →
          length (List.filter is_ConsoleInfo l) = 1%nat
          ∧ length (List.filter is_ConsoleWarn l)
            = match ecsConnection params, wait_reply host (waits p) with
              | Some _, None => 0%nat
              | _, _ => 1%nat
              end).
Proof.
  destruct (ecsConnection params) as [c|] eqn:Hc.
  - rewrite (retry_body_eq host params c) by done.
    destruct (wait_reply host (waits p)) as [err|].
    + exists (round_failed host params c v err). split; [done|].
      unfold round_failed, traced, calls.
      destruct (verbose params); simpl; by split_and!.
    + exists (round_stable params c v). split; [done|].
      unfold round_stable, traced, calls.
      destruct (verbose params); simpl; by split_and!.
  - unfold retry_body, try_catch, mbind, Act_bind, console_info, console_warn.
    rewrite when_extend. unfold waitForStability. rewrite Hc. unfold throw.
    rewrite when_extend. unfold mret, Act_ret. rewrite extend_extend.
    eexists. split; [done|]. unfold calls.
    destruct (verbose params); simpl; by split_and!.
Qed.

Lemma waits_calls p l :
  waits (extend p l) = (waits p + length (List.filter is_WaitFor (calls l)))%nat.
Proof.
  rewrite waits_extend. f_equal. f_equal. unfold calls.
  induction l as [|e l IH]; [done|]. by destruct e; simpl; rewrite ?IH.
Qed.

Lemma calls_app l1 l2 : calls (l1 ++ l2) = (calls l1 ++ calls l2)%list.
Proof. apply List.filter_app. Qed.

Lemma filter_WaitFor_calls l :
  List.filter is_WaitFor (calls l) = List.filter is_WaitFor l.
Proof.
  unfold calls. induction l as [|e l IH]; [done|].
  by destruct e; simpl; rewrite ?IH.
Qed.

Lemma retry_cond_true params v :
  retry_cond params v = true →
  ∃ m, retries params = Num m ∧ currTry v <= m ∧ isStable v = false.
Proof.
  unfold retry_cond, js_le. destruct (retries params) as [|m]; [done|].
  intros [Hle Hst]%andb_true_iff. exists m.
  apply Z.leb_le in Hle. apply negb_true_iff in Hst. done.
Qed.

(** ** The budget of checks *)

(** X1.  Whatever the checks answer, and whether or not [params] hold a
    connection, [retry] returns a count of at least 1 and at most one more
    than the retries, and starts at most as many checks as there are
    retries: none when the retries are zero, negative or [NaN]. *)
Theorem retry_within_budget host params p :
  ∃ n l, retry host params p = (Normal n, extend p l)
         ∧ match retries params with
           | NaN => n = 1 ∧ l = []
           | Num m =>
               1 <= n <= Z.max 1 (m + 1)
               ∧ (length (List.filter is_WaitFor l) ≤ Z.to_nat m)%nat
           end.
Proof.
  destruct (retries params) as [|m] eqn:Hm.
  { exists 1, []. rewrite extend_nil. split; [|done].
    unfold retry. rewrite retry_loop_step. unfold retry_cond. by rewrite Hm. }
  cut (∀ v p,
         (λ v p r, ∃ n l, r = (Normal n, extend p l)
                     ∧ currTry v <= n <= Z.max (currTry v) (m + 1)
                     ∧ (length (List.filter is_WaitFor l)
                        ≤ retry_budget params v)%nat)
           v p (retry_loop host params v p)).
  { intros H. destruct (H retry_init p) as (n & l & Hr & Hn & Hl).
    exists n, l. split; [done|]. simpl in Hn. split; [done|].
    revert Hl. unfold retry_budget. rewrite Hm. simpl. lia. }
  apply retry_loop_rounds; clear p.
  - intros v p _. exists (currTry v), []. rewrite extend_nil.
    split_and!; [done|lia|lia|simpl; lia].
  - intros v p v' p' r Hcond Hbody (n & l' & -> & Hn & Hl').
    destruct (retry_cond_true _ _ Hcond) as (m' & Hm' & Hle & Hst).
    rewrite Hm in Hm'. injection Hm' as <-.
    destruct (retry_body_round host params v p) as (l1 & Hb & Hcalls & _).
    rewrite Hb in Hbody. injection Hbody as <- <-.
    exists n, (l1 ++ l')%list. rewrite extend_extend. split; [done|].
    assert (Hone : (length (List.filter is_WaitFor l1) ≤ 1)%nat).
    { rewrite <- filter_WaitFor_calls, Hcalls.
      destruct (ecsConnection params); simpl; lia. }
    rewrite List.filter_app, length_app.
    revert Hn Hl'. unfold retry_budget. rewrite Hm, Hst.
    destruct (ecsConnection params), (wait_reply host (waits p)); simpl; lia.
Qed.

(** X2.  A [retry] on [params] that hold no connection never reaches AWS:
    each attempt throws on the missing connection, the loop takes that for a
    failed check, and the count comes back one above the retries with no
    call made. *)
Theorem retry_without_connection host params m p :
  ecsConnection params = None →
  retries params = Num m →
  1 <= m →
  ∃ l, retry host params p = (Normal (m + 1), extend p l) ∧ calls l = [].
Proof.
  intros Hc Hm H1.
  cut (∀ v p,
         (λ v p r, isStable v = false → currTry v <= m + 1 →
                   ∃ l, r = (Normal (m + 1), extend p l) ∧ calls l = [])
           v p (retry_loop host params v p)).
  { intros H. apply (H retry_init p); simpl; [done|lia]. }
  apply retry_loop_rounds; clear p.
  - intros v p Hcond Hst Hle. exists []. rewrite extend_nil. split; [|done].
    revert Hcond. unfold retry_cond. rewrite Hm, Hst. simpl.
    rewrite andb_true_r. intros Hgt%Z.leb_gt. do 2 f_equal. lia.
  - intros v p v' p' r Hcond Hbody IH Hst _.
    destruct (retry_cond_true _ _ Hcond) as (m' & Hm' & Hle & _).
    rewrite Hm in Hm'. injection Hm' as <-.
    destruct (retry_body_round host params v p) as (l1 & Hb & Hcalls & _).
    rewrite Hb, Hc in Hbody. injection Hbody as <- <-. rewrite Hc in Hcalls.
    destruct IH as (l' & -> & Hl'); [done|simpl; lia|].
    exists (l1 ++ l')%list. rewrite extend_extend, calls_app, Hcalls, Hl'. done.
Qed.

(** ** The verbose flag *)

(** X3.  The verbose flag only adds console output: with the flag set either
    way, [retry] returns the same count and makes the same calls in the same
    order. *)
Theorem verbose_only_traces host params b p :
  ∃ n l1 l2,
    retry host params p = (Normal n, extend p l1)
    ∧ retry host (set_verbose params b) p = (Normal n, extend p l2)
    ∧ calls l1 = calls l2.
Proof.
  cut (∀ v p,
         (λ v p r, ∀ q, waits q = waits p →
                   ∃ n l1 l2,
                     r = (Normal n, extend p l1)
                     ∧ retry_loop host (set_verbose params b) v q
                       = (Normal n, extend q l2)
                     ∧ calls l1 = calls l2)
           v p (retry_loop host params v p)).
  { intros H. by apply (H retry_init p p). }
  apply retry_loop_rounds; clear p.
  - intros v p Hcond q _. exists (currTry v), [], []. rewrite !extend_nil.
    split_and!; [done| |done]. rewrite retry_loop_step.
    change (retry_cond (set_verbose params b) v) with (retry_cond params v).
    by rewrite Hcond.
  - intros v p v' p' r Hcond Hbody IH q Hq.
    destruct (retry_body_round host params v p) as (l1 & Hb & Hcalls & _).
    rewrite Hb in Hbody. injection Hbody as <- <-.
    destruct (retry_body_round host (set_verbose params b) v q)
      as (l2 & Hb2 & Hcalls2 & _).
    change (ecsConnection (set_verbose params b)) with (ecsConnection params)
      in Hb2, Hcalls2.
    change (wait_of (set_verbose params b)) with (wait_of params) in Hcalls2.
    rewrite Hq in Hb2.
    destruct (IH (extend q l2)) as (n & l1' & l2' & -> & Hr2 & Heq).
    { by rewrite !waits_calls, Hcalls, Hcalls2, Hq. }
    exists n, (l1 ++ l1')%list, (l2 ++ l2')%list. rewrite !extend_extend.
    split_and!; [done| |by rewrite !calls_app, Hcalls, Hcalls2, Heq].
    rewrite retry_loop_step.
    change (retry_cond (set_verbose params b) v) with (retry_cond params v).
    by rewrite Hcond, Hb2, Hr2, extend_extend.
Qed.

(** X4.  With the verbose flag set, [retry] on a connection writes one
    "Waiting" line per check it starts and one "failed" line per check that
    rejects: the count it returns is one more than the number of "failed"
    lines. *)
Theorem verbose_logs_every_attempt host params connection p :
  verbose params = true →
  ecsConnection params = Some connection →
  ∃ n l, retry host params p = (Normal n, extend p l)
         ∧ Z.of_nat (length (List.filter is_ConsoleWarn l)) = n - 1
         ∧ length (List.filter is_ConsoleInfo l)
           = length (List.filter is_WaitFor l).
Proof.
  intros Hv Hc.
  cut (∀ v p,
         (λ v p r, ∃ n l, r = (Normal n, extend p l)
                     ∧ Z.of_nat (length (List.filter is_ConsoleWarn l))
                       = n - currTry v
                     ∧ length (List.filter is_ConsoleInfo l)
                       = length (List.filter is_WaitFor l))
           v p (retry_loop host params v p)).
  { intros H. apply (H retry_init p). }
  apply retry_loop_rounds; clear p.
  - intros v p _. exists (currTry v), []. rewrite extend_nil.
    split_and!; [done|simpl; lia|done].
  - intros v p v' p' r _ Hbody (n & l' & -> & Hw & Hi).
    destruct (retry_body_round host params v p) as (l1 & Hb & Hcalls & _ & Hlog).
    destruct (Hlog Hv) as [Hinfo Hwarn]. rewrite Hc in Hcalls, Hwarn, Hb.
    rewrite Hb in Hbody. injection Hbody as <- <-.
    exists n, (l1 ++ l')%list. rewrite extend_extend. split; [done|].
    rewrite !List.filter_app, !length_app.
    assert (length (List.filter is_WaitFor l1) = 1%nat) as ->.
    { by rewrite <- filter_WaitFor_calls, Hcalls. }
    rewrite Hinfo, Hwarn, Hi. split; [|done].
    revert Hw. destruct (wait_reply host (waits p)); simpl; lia.
Qed.

(** ** The paths of a run *)

Lemma extractParams_read host p :
  extractParams host p =
  match JSON_parse host (core_getInput host "ecs-services") with
  | Throw e => (Throw e, p)
  | Normal sv =>
      if configured host then (Normal (Some (params_read host sv)), p)
      else (Normal None,
            {| events := events p ++ [SetFailed missing_message]; exitCode := 1 |})
  end.
Proof.
  unfold extractParams, mbind, Act_bind, of_completion, configured, resolved_region.
  destruct (JSON_parse host (core_getInput host "ecs-services")) as [sv|e]; [|done].
  destruct (truthy (core_getInput host "role-to-assume")); simpl; [|done].
  by destruct (truthy_opt _).
Qed.

Lemma assumeRoleInAccount_assumed host p :
  assumeRoleInAccount host p
  = (assumed host, extend p [StsSend (stsClient host) (assume_command host)]).
Proof.
  unfold assumed, assumeRoleInAccount, stsClient_send, mbind, Act_bind, of_completion.
  rewrite !emit_extend. fold (assume_command host).
  destruct (sts_reply host (stsClient host) (assume_command host)) as [r|e]; [|done].
  by destruct (Credentials r).
Qed.

Lemma createEcsConnection_options host creds p :
  createEcsConnection host creds p
  = (match ecs_refuses host (options_of creds) with
     | Some e => Throw e
     | None => Normal (options_of creds)
     end,
     extend p [NewECS (options_of creds)]).
Proof.
  unfold createEcsConnection, new_ECS, mbind, Act_bind. rewrite emit_extend.
  fold (options_of creds). by destruct (ecs_refuses host (options_of creds)).
Qed.

(** Every run of [main] goes one of the five ways of [run_path]. *)
Lemma main_paths host : run_path host (main host start).
Proof.
  rewrite main_unfold, extractParams_read.
  destruct (JSON_parse host (core_getInput host "ecs-services")) as [sv|e] eqn:Hsv;
    [|by apply run_unparsed].
  destruct (configured host) eqn:Hcfg.
  - rewrite assumeRoleInAccount_assumed.
    destruct (assumed host) as [creds|e] eqn:Ha.
    + rewrite createEcsConnection_options.
      destruct (ecs_refuses host (options_of creds)) as [e|] eqn:He.
      * by apply (run_refused host sv creds e).
      * destruct (retry_returns host
                    (set_ecsConnection (params_read host sv) (options_of creds))
                    (extend (extend start [StsSend (stsClient host) (assume_command host)])
                            [NewECS (options_of creds)])) as (n & l & Hr & Hl).
        rewrite Hr, main_verdict_eq.
        pose proof (run_checked host sv creds n l Hsv Hcfg Ha He Hr Hl) as Hpath.
        unfold verdict_events in Hpath.
        change (retries (set_ecsConnection (params_read host sv) (options_of creds)))
          with (parseInt (core_getInput host "retries")) in *.
        destruct (js_gt _ _); revert Hpath; unfold extend, traced; simpl;
          by rewrite <- ?app_assoc.
    + pose proof (run_unassumed host sv e Hsv Ha) as Hpath.
      rewrite Hcfg in Hpath. exact Hpath.
  - rewrite assumeRoleInAccount_assumed.
    destruct (assumed host) as [creds|e] eqn:Ha.
    + by apply (run_unconfigured host sv creds).
    + pose proof (run_unassumed host sv e Hsv Ha) as Hpath.
      rewrite Hcfg in Hpath. exact Hpath.
Qed.

Lemma reports_retry_events params l :
  Forall (retry_event params) l → List.filter is_report l = [].
Proof. apply retry_events_no_report. Qed.

Lemma reports_verdict_events params n :
  List.filter is_report (verdict_events params n)
  = if js_gt (Num n) (retries params)
    then [SetFailed (not_stable_message params)]
    else [SetOutput "retries" (pretty n)].
Proof.
  unfold verdict_events, traced.
  by destruct (js_gt _ _), (verbose params).
Qed.

(** X5.  Every run of [main] ends normally in one of two ways, never in
    between: exit code 0 with exactly one report, the output [retries]; or
    exit code 1 with one or more reports, all of them failures.  An output
    is never set together with a failure. *)
Theorem main_outcome_is_binary host :
  ∃ p, main host start = (Normal (), p)
       ∧ (exitCode p = 0 ∧ (∃ v, reports p = [SetOutput "retries" v])
          ∨ exitCode p = 1 ∧ reports p ≠ []
            ∧ Forall (λ e, is_SetFailed e = true) (reports p)).
Proof.
  destruct (main_paths host) as [e He|sv e Hsv Ha|sv creds Hsv Hcfg Ha
                                 |sv creds e Hsv Hcfg Ha He
                                 |sv creds n l Hsv Hcfg Ha He Hr Hl];
    eexists; (split; [done|]).
  - right. unfold reports; simpl. split_and!; [done|done|by repeat constructor].
  - right. unfold reports; simpl. split; [done|].
    destruct (configured host); simpl; split; by repeat constructor.
  - right. unfold reports; simpl. split_and!; [done|done|by repeat constructor].
  - right. unfold reports; simpl. split_and!; [done|done|by repeat constructor].
  - unfold reports. cbn [events exitCode].
    rewrite !List.filter_app, (reports_retry_events _ _ Hl), reports_verdict_events.
    change (retries (set_ecsConnection (params_read host sv) (options_of creds)))
      with (parseInt (core_getInput host "retries")).
    destruct (js_gt _ _); simpl.
    + right. split_and!; [done|done|by repeat constructor].
    + left. split; [done|]. by eexists.
Qed.

(** ** Console output *)

Lemma calls_all l : calls l = l → Forall (λ e, is_console e = false) l.
Proof.
  unfold calls. induction l as [|e l IH]; [constructor|]. simpl.
  destruct (is_console e) eqn:He; simpl.
  - intros Heq. pose proof (List.filter_length_le (λ e, negb (is_console e)) l) as Hle.
    rewrite Heq in Hle. simpl in Hle. lia.
  - intros [= Heq]. constructor; [done|]. by apply IH.
Qed.

Lemma retry_quiet host params p :
  verbose params = false →
  ∃ n l, retry host params p = (Normal n, extend p l)
         ∧ Forall (λ e, is_console e = false) l.
Proof.
  intros Hv.
  cut (∀ v p,
         (λ v p r, ∃ n l, r = (Normal n, extend p l)
                     ∧ Forall (λ e, is_console e = false) l)
           v p (retry_loop host params v p)).
  { intros H. apply (H retry_init p). }
  apply retry_loop_rounds; clear p.
  - intros v p _. exists (currTry v), []. by rewrite extend_nil.
  - intros v p v' p' r _ Hbody (n & l' & -> & Hl').
    destruct (retry_body_round host params v p) as (l1 & Hb & _ & Hq & _).
    rewrite Hb in Hbody. injection Hbody as <- <-.
    exists n, (l1 ++ l')%list. rewrite extend_extend. split; [done|].
    apply Forall_app. split; [|done]. by apply calls_all, Hq.
Qed.

(** X6.  Unless the [verbose] input is exactly "true", a run of [main]
    writes nothing to the console: not in the loop, and not with the
    verdict. *)
Theorem quiet_run_writes_nothing host :
  core_getInput host "verbose" ≠ "true" →
  Forall (λ e, is_console e = false) (events (main host start).2).
Proof.
  intros Hv. apply String.eqb_neq in Hv.
  destruct (main_paths host) as [e He|sv e Hsv Ha|sv creds Hsv Hcfg Ha
                                 |sv creds e Hsv Hcfg Ha He
                                 |sv creds n l Hsv Hcfg Ha He Hr Hl];
    cbn [snd events]; try by repeat constructor.
  - destruct (configured host); by repeat constructor.
  - destruct (retry_quiet host
                (set_ecsConnection (params_read host sv) (options_of creds))
                {| events := [StsSend (stsClient host) (assume_command host);
                              NewECS (options_of creds)];
                   exitCode := 0 |} Hv) as (n' & l' & Hr' & Hl').
    rewrite Hr in Hr'. injection Hr' as _ <-.
    rewrite !Forall_app. split_and!; [by repeat constructor|done|].
    unfold verdict_events, traced. cbn [verbose set_ecsConnection params_read].
    rewrite Hv. destruct (js_gt _ _); by repeat constructor.
Qed.

(** ** The calls of a run, and their order *)

Lemma retry_events_no_setup params l :
  Forall (retry_event params) l →
  List.filter is_StsSend l = [] ∧ List.filter is_NewECS l = [].
Proof.
  induction 1 as [|e l He _ [IH1 IH2]]; [done|]. simpl.
  by destruct e; simpl in *; try done.
Qed.

Lemma verdict_events_no_call params n e :
  e ∈ verdict_events params n →
  is_StsSend e = false ∧ is_NewECS e = false ∧ is_WaitFor e = false.
Proof.
  unfold verdict_events, traced.
  destruct (js_gt _ _), (verbose params); simpl;
    rewrite ?elem_of_cons, ?elem_of_nil; intuition (subst; done).
Qed.

Lemma verdict_events_no_setup params n :
  List.filter is_StsSend (verdict_events params n) = []
  ∧ List.filter is_NewECS (verdict_events params n) = [].
Proof.
  unfold verdict_events, traced.
  by destruct (js_gt _ _), (verbose params).
Qed.

(** X7.  A run of [main] sends the AssumeRole command at most once, and
    exactly once when the services parse, missing role or not; it builds at
    most one connection; and it waits only after both, on the connection it
    built. *)
Theorem main_calls_in_order host :
  (length (List.filter is_StsSend (events (main host start).2)) ≤ 1)%nat
  ∧ (length (List.filter is_NewECS (events (main host start).2)) ≤ 1)%nat
  ∧ (∀ sv, JSON_parse host (core_getInput host "ecs-services") = Normal sv →
           List.filter is_StsSend (events (main host start).2)
           = [StsSend (stsClient host) (assume_command host)])
  ∧ (∀ c st cl sv, WaitFor c st cl sv ∈ events (main host start).2 →
       ∃ rest, events (main host start).2
               = StsSend (stsClient host) (assume_command host) :: NewECS c :: rest).
Proof.
  destruct (main_paths host) as [e He|sv e Hsv Ha|sv creds Hsv Hcfg Ha
                                 |sv creds e Hsv Hcfg Ha He
                                 |sv creds n l Hsv Hcfg Ha He Hr Hl];
    cbn [snd events].
  - split_and!; [simpl; lia|simpl; lia| |].
    + intros sv Hsv. by rewrite He in Hsv.
    + intros c st cl sv. rewrite ?elem_of_cons, ?elem_of_nil. intuition discriminate.
  - destruct (configured host); simpl;
      (split_and!; [lia|lia|done|]);
      intros c st cl sv'; rewrite ?elem_of_cons, ?elem_of_nil; intuition (subst; done).
  - simpl. split_and!; [lia|lia|done|].
    intros c st cl sv'. rewrite ?elem_of_cons, ?elem_of_nil. intuition discriminate.
  - simpl. split_and!; [lia|lia|done|].
    intros c st cl sv'. rewrite ?elem_of_cons, ?elem_of_nil. intuition discriminate.
  - destruct (retry_events_no_setup _ _ Hl) as [Hl1 Hl2].
    destruct (verdict_events_no_setup
                (set_ecsConnection (params_read host sv) (options_of creds)) n)
      as [Hv1 Hv2].
    cbn [app List.filter is_StsSend is_NewECS].
    rewrite !List.filter_app, Hl1, Hl2, Hv1, Hv2. simpl.
    split_and!; [lia|lia|done|].
    intros c st cl sv'. rewrite !elem_of_cons, elem_of_app.
    intros [?|[?|[Hin|Hin]]]; [done|done| |].
    + rewrite Forall_forall in Hl. specialize (Hl _ Hin). simpl in Hl.
      destruct Hl as ([= <-] & _). by eexists.
    + apply verdict_events_no_call in Hin as (_ & _ & Hw). done.
Qed.

Lemma assumed_credentials host r k :
  sts_reply host (stsClient host) (assume_command host) = Normal r →
  Credentials r = Some k →
  assumed host
  = Normal {| cred_accessKeyId := AccessKeyId k;
              cred_secretAccessKey := SecretAccessKey k;
              cred_sessionToken := SessionToken k;
              cred_region := "eu-central-1" |}.
Proof.
  intros Hr Hk.
  unfold assumed, assumeRoleInAccount, stsClient_send, mbind, Act_bind, of_completion.
  rewrite emit_extend. fold (assume_command host). by rewrite Hr, Hk.
Qed.

(** X8.  The connection of a run is made of what the identity provider
    returned: when it answers with credentials, the connection that the run
    builds, and every connection it waits on, holds that access key id,
    secret access key and session token, for the API version "2014-11-13". *)
Theorem credentials_reach_the_connection host r k :
  sts_reply host (stsClient host) (assume_command host) = Normal r →
  Credentials r = Some k →
  ∀ e, e ∈ events (main host start).2 →
       match e with
       | NewECS c | WaitFor c _ _ _ =>
           c = {| apiVersion := "2014-11-13";
                  accessKeyId := AccessKeyId k;
                  secretAccessKey := SecretAccessKey k;
                  sessionToken := SessionToken k;
                  ecs_region := "eu-central-1" |}
       | _ => True
       end.
Proof.
  intros Hr Hk. pose proof (assumed_credentials host r k Hr Hk) as Hcreds.
  apply Forall_forall.
  destruct (main_paths host) as [e He|sv e Hsv Ha|sv creds Hsv Hcfg Ha
                                 |sv creds e Hsv Hcfg Ha He
                                 |sv creds n l Hsv Hcfg Ha He Hr' Hl];
    cbn [snd events]; try by repeat constructor.
  - destruct (configured host); by repeat constructor.
  - rewrite Hcreds in Ha. injection Ha as <-. by repeat constructor.
  - rewrite Hcreds in Ha. injection Ha as <-.
    constructor; [done|]. constructor; [done|].
    apply Forall_app. split.
    + rewrite Forall_forall in Hl |- *. intros e He'. specialize (Hl e He').
      destruct e; try done. simpl in Hl. by destruct Hl as ([= <-] & _).
    + unfold verdict_events, traced.
      by destruct (js_gt _ _), (verbose _); repeat constructor.
Qed.

(** ** Incomplete configuration and answers *)

Lemma assumed_no_credentials host r :
  sts_reply host (stsClient host) (assume_command host) = Normal r →
  Credentials r = None →
  ∃ e, assumed host = Throw e.
Proof.
  intros Hr Hk.
  unfold assumed, assumeRoleInAccount, stsClient_send, mbind, Act_bind, of_completion.
  rewrite emit_extend. fold (assume_command host). rewrite Hr, Hk. by eexists.
Qed.

(** X11.  When the identity provider answers without credentials, reading
    them throws: the run ends in the handler of [main] with exit code 1,
    right after the AssumeRole command, and no connection is built. *)
Theorem response_without_credentials host sv r :
  JSON_parse host (core_getInput host "ecs-services") = Normal sv →
  sts_reply host (stsClient host) (assume_command host) = Normal r →
  Credentials r = None →
  ∃ msg,
    main host start
    = (Normal (),
       {| events := (if configured host then [] else [SetFailed missing_message])
                    ++ [StsSend (stsClient host) (assume_command host);
                        SetFailed msg];
          exitCode := 1 |}).
Proof.
  intros Hsv Hr Hk. destruct (assumed_no_credentials host r Hr Hk) as [e He].
  exists (message e).
  destruct (main_paths host) as [e' He'|sv' e' Hsv' Ha|sv' creds Hsv' Hcfg' Ha
                                 |sv' creds e' Hsv' Hcfg' Ha He'
                                 |sv' creds n l Hsv' Hcfg' Ha He' Hr' Hl];
    congruence.
Qed.

(** ** The retries at the edges, and the verdict as a whole *)

Section Judged.

Context (host : Host) (params : Params) (creds : credentials) (connection : ECS).
Context (p1 p2 : Process) (m : Z).
Hypothesis Hparams : extractParams host start = (Normal (Some params), start).
Hypothesis Hcreds : assumeRoleInAccount host start = (Normal creds, p1).
Hypothesis Hconnection : createEcsConnection host creds p1 = (Normal connection, p2).
Hypothesis Hretries : retries params = Num m.

Lemma main_judged :
  ∃ n l, retry host (set_ecsConnection params connection) p2 = (Normal n, extend p2 l)
         ∧ reports (extend p2 l) = [] ∧ waits p2 = 0%nat
         ∧ main host start
           = (Normal (),
              if m <? n then
                {| events := events (extend p2 l)
                             ++ (if verbose params
                                 then [ConsoleError (not_stable_message params)]
                                 else [])
                             ++ [SetFailed (not_stable_message params)];
                   exitCode := 1 |}
              else
                {| events := events (extend p2 l)
                             ++ (if verbose params
                                 then [ConsoleLog ("Service is stable after "
                                                   +:+ pretty n +:+ " retries!")]
                                 else [])
                             ++ [SetOutput "retries" (pretty n)];
                   exitCode := 0 |}).
Proof.
  destruct (main_reaches_retry host params creds connection p1 p2)
    as (Hrep & Hw & Hexit & n & l & Hr & Hl & Hmain); [done..|].
  exists n, l. split_and!; [done| |done|].
  - by rewrite reports_extend, Hrep, (retry_events_no_report _ _ Hl).
  - rewrite Hmain, main_verdict_eq.
    change (retries (set_ecsConnection params connection)) with (retries params).
    change (verbose (set_ecsConnection params connection)) with (verbose params).
    unfold not_stable_message.
    change (retries (set_ecsConnection params connection)) with (retries params).
    rewrite Hretries. cbn [js_gt]. destruct (m <? n); [done|].
    unfold extend. cbn [events exitCode]. by rewrite Hexit.
Qed.

End Judged.

(** X12.  With zero or negative retries, a run that reaches [retry] makes no
    check at all and still fails: the count 1 is above the retries, so the
    single report is the failure "Service is not stable after N retries!"
    and the exit code is 1. *)
Theorem no_retries_no_checks host params creds connection p1 p2 m :
  extractParams host start = (Normal (Some params), start) →
  assumeRoleInAccount host start = (Normal creds, p1) →
  createEcsConnection host creds p1 = (Normal connection, p2) →
  retries params = Num m →
  m <= 0 →
  ∃ p, main host start = (Normal (), p)
       ∧ reports p = [SetFailed ("Service is not stable after "
                                 +:+ pretty m +:+ " retries!")]
       ∧ waits p = 0%nat
       ∧ exitCode p = 1.
Proof.
  intros Hx Ha Hc Hm Hle.
  destruct (main_judged host params creds connection p1 p2 m Hx Ha Hc Hm)
    as (n & l & Hr & Hrep & Hw & ->).
  unfold retry, retry_init in Hr.
  rewrite (retry_loop_exhausted host (set_ecsConnection params connection) m) in Hr
    by (done || lia).
  injection Hr as <- Hl.
  assert (l = []) as ->.
  { destruct p2 as [ev x]. unfold extend in Hl. simpl in Hl.
    injection Hl as Hl. rewrite <- (app_nil_r ev) in Hl at 1.
    by apply app_inv_head in Hl. }
  rewrite extend_nil in *.
  replace (m <? 1) with true by (symmetry; apply Z.ltb_lt; lia).
  eexists. split; [done|]. unfold reports, waits in *. cbn [events exitCode].
  rewrite !List.filter_app, Hrep. unfold not_stable_message. rewrite Hm.
  split_and!; [by destruct (verbose params)| |done].
  rewrite length_app, Hw. by destruct (verbose params).
Qed.

(** X13.  A run that reaches [retry] with the retries read as the integer m
    ends with exit code 0 exactly when one of the first m checks resolves;
    m further rejections, or a check that would resolve later, do not
    help. *)
Theorem main_succeeds_iff_a_check_resolves host params creds connection p1 p2 m :
  extractParams host start = (Normal (Some params), start) →
  assumeRoleInAccount host start = (Normal creds, p1) →
  createEcsConnection host creds p1 = (Normal connection, p2) →
  retries params = Num m →
  exitCode (main host start).2 = 0
  ↔ ∃ k : nat, (1 ≤ k)%nat ∧ Z.of_nat k <= m ∧ wait_reply host (pred k) = None.
Proof.
  intros Hx Ha Hc Hm.
  destruct (main_judged host params creds connection p1 p2 m Hx Ha Hc Hm)
    as (n & l & Hr & _ & Hw & ->).
  assert (Hexit : ∀ a b : Process, exitCode a = 1 → exitCode b = 0 →
                    (exitCode (Normal (), if m <? n then a else b).2 = 0 ↔ n <= m)).
  { intros a b Ha1 Hb0. destruct (Z.ltb_spec m n); simpl; lia. }
  rewrite Hexit by done. clear Hexit.
  destruct (decide (1 <= m)) as [H1|H1].
  - destruct (retry_loop_run host (set_ecsConnection params connection) retry_init p2)
      as (v & p & Hrun & Hend & Heq).
    unfold retry in Hr. rewrite Hr in Heq. injection Heq as -> _.
    apply (counter_invariant_reachable host _ connection m) in Hrun; [|done..].
    destruct Hrun as [Hb Hs]. simpl in Hb, Hs. unfold attempt in Hs. rewrite Hw in Hs.
    destruct (isStable v) eqn:Hst.
    + destruct Hs as (Hle & _ & Hok). split; [|done]. intros _.
      exists (Z.to_nat (currTry v)). split_and!; [lia|lia|done].
    + destruct Hs as [_ Hrej].
      revert Hend. unfold retry_cond. cbn [retries set_ecsConnection].
      rewrite Hm, Hst. simpl. rewrite andb_true_r. intros Hgt%Z.leb_gt.
      split; [lia|]. intros (k & Hk1 & Hkm & Hok).
      destruct (Hrej k Hk1); [lia|done].
  - unfold retry, retry_init in Hr.
    rewrite (retry_loop_exhausted host (set_ecsConnection params connection) m) in Hr
      by (done || lia).
    injection Hr as <- _. split; [lia|]. intros (k & Hk1 & Hkm & _). lia.
Qed.

(** ** The module, and the errors of a run *)

Lemma run_loaded host :
  core_getInput host "aws-region" ≠ "" → run host = main host start.
Proof.
  intros Hregion. unfold run, new_STSClient, stsClient. cbn [sts_region].
  unfold truthy. apply String.eqb_neq in Hregion. by rewrite Hregion.
Qed.


Section Reached.

Context (host : Host) (sv : json) (creds : credentials) (m : Z).
Hypothesis Hservices : JSON_parse host (core_getInput host "ecs-services") = Normal sv.
Hypothesis Hconfigured : configured host = true.
Hypothesis Hassumed : assumed host = Normal creds.
Hypothesis Hbuilt : ecs_refuses host (options_of creds) = None.
Hypothesis Hretries : parseInt (core_getInput host "retries") = Num m.

(** The parameters and the process with which such a run reaches [retry]. *)
Let params := set_ecsConnection (params_read host sv) (options_of creds).
Let p2 := extend (extend start [StsSend (stsClient host) (assume_command host)])
                 [NewECS (options_of creds)].




End Reached.


(** X9.  When the role is missing, on a host where the module loads, a run
    ends with exit code 1, builds no connection, starts no check and sets no
    output; when the services parse, its first event is the failure "AWS
    credentials were not found in inputs or environment variables.". *)
Theorem missing_role_builds_nothing host :
  core_getInput host "role-to-assume" = "" →
  core_getInput host "aws-region" ≠ "" →
  exitCode (run host).2 = 1
  ∧ Forall (λ e, is_NewECS e = false ∧ is_WaitFor e = false ∧ is_SetOutput e = false)
      (events (run host).2)
  ∧ (∀ sv, JSON_parse host (core_getInput host "ecs-services") = Normal sv →
           ∃ rest, events (run host).2
                   = SetFailed "AWS credentials were not found in inputs or environment variables."
                     :: rest).
Proof.
  intros Hrole Hregion. rewrite (run_loaded host Hregion).
  assert (Hmissing : configured host = false).
  { unfold configured. by rewrite Hrole. }
  destruct (main_paths host) as [e He|sv e Hsv Ha|sv creds Hsv Hcfg Ha
                                 |sv creds e Hsv Hcfg Ha He
                                 |sv creds n l Hsv Hcfg Ha He Hr Hl];
    cbn [snd events exitCode]; try congruence.
  - split_and!; [done|by repeat constructor|]. intros sv Hsv. congruence.
  - rewrite Hmissing. split_and!; [done|by repeat constructor|].
    intros _ _. by eexists.
  - split_and!; [done|by repeat constructor|]. intros _ _. by eexists.
Qed.


(** ** The further properties on examples *)

Lemma retry_without_connection_witness :
  ∃ l, retry (Demo.host "2" Demo.role "eu-west-1" Demo.always_fails)
         (params_read (Demo.host "2" Demo.role "eu-west-1" Demo.always_fails)
            (JArray [JString "svcA"; JString "svcB"])) start
       = (Normal 3, extend start l)
       ∧ calls l = [].
Proof.
  apply (retry_without_connection
           (Demo.host "2" Demo.role "eu-west-1" Demo.always_fails)
           (params_read (Demo.host "2" Demo.role "eu-west-1" Demo.always_fails)
              (JArray [JString "svcA"; JString "svcB"])) 2 start);
    [reflexivity|reflexivity|lia].
Defined.

Lemma verbose_logs_every_attempt_witness :
  ∃ n l, retry (Demo.host "3" Demo.role "eu-west-1" (Demo.fails_first 2))
           (set_verbose (Demo.params (Num 3)) true) start
         = (Normal n, extend start l)
         ∧ Z.of_nat (length (List.filter is_ConsoleWarn l)) = n - 1
         ∧ length (List.filter is_ConsoleInfo l)
           = length (List.filter is_WaitFor l).
Proof.
  apply (verbose_logs_every_attempt
           (Demo.host "3" Demo.role "eu-west-1" (Demo.fails_first 2))
           (set_verbose (Demo.params (Num 3)) true) Demo.connection start);
    reflexivity.
Defined.

Lemma quiet_run_writes_nothing_witness :
  Forall (λ e, is_console e = false)
    (events (main (Demo.host "3" Demo.role "eu-west-1" (Demo.fails_first 2)) start).2).
Proof.
  apply (quiet_run_writes_nothing
           (Demo.host "3" Demo.role "eu-west-1" (Demo.fails_first 2))).
  vm_compute. discriminate.
Defined.

Lemma main_calls_in_order_witness :
  List.filter is_StsSend
    (events (main (Demo.host "3" Demo.role "eu-west-1" (Demo.fails_first 2)) start).2)
  = [StsSend {| sts_region := "eu-west-1" |}
             {| RoleArn := Demo.role; RoleSessionName := "ecs-wait-action" |}]
  ∧ ∃ rest,
      events (main (Demo.host "3" Demo.role "eu-west-1" (Demo.fails_first 2)) start).2
      = StsSend {| sts_region := "eu-west-1" |}
                {| RoleArn := Demo.role; RoleSessionName := "ecs-wait-action" |}
        :: NewECS Demo.connection :: rest.
Proof.
  destruct (main_calls_in_order
              (Demo.host "3" Demo.role "eu-west-1" (Demo.fails_first 2)))
    as (_ & _ & Hsts & Hwait).
  split.
  - apply (Hsts (JArray [JString "svcA"; JString "svcB"])). reflexivity.
  - apply (Hwait Demo.connection "servicesStable" "cluster"
             (JArray [JString "svcA"; JString "svcB"])).
    vm_compute. apply list_elem_of_In. simpl. tauto.
Defined.

Lemma credentials_reach_the_connection_witness :
  NewECS Demo.connection
  ∈ events (main (Demo.host "3" Demo.role "eu-west-1" (Demo.fails_first 2)) start).2
  ∧ Demo.connection
    = {| apiVersion := "2014-11-13";
         accessKeyId := Some "AKIA";
         secretAccessKey := Some "secret";
         sessionToken := Some "token";
         ecs_region := "eu-central-1" |}.
Proof.
  assert (Hin : NewECS Demo.connection
                ∈ events (main (Demo.host "3" Demo.role "eu-west-1"
                                  (Demo.fails_first 2)) start).2).
  { vm_compute. apply list_elem_of_In. simpl. tauto. }
  split; [exact Hin|].
  exact (credentials_reach_the_connection
           (Demo.host "3" Demo.role "eu-west-1" (Demo.fails_first 2))
           {| Credentials := Some {| AccessKeyId := Some "AKIA";
                                     SecretAccessKey := Some "secret";
                                     SessionToken := Some "token" |} |}
           {| AccessKeyId := Some "AKIA";
              SecretAccessKey := Some "secret";
              SessionToken := Some "token" |}
           eq_refl eq_refl (NewECS Demo.connection) Hin).
Defined.

Lemma response_without_credentials_witness :
  ∃ msg,
    main (Demo.answering (Demo.host "2" Demo.role "eu-west-1" Demo.always_fails)
            (Normal {| Credentials := None |})) start
    = (Normal (),
       {| events := [StsSend {| sts_region := "eu-west-1" |}
                             {| RoleArn := Demo.role;
                                RoleSessionName := "ecs-wait-action" |};
                     SetFailed msg];
          exitCode := 1 |}).
Proof.
  destruct (response_without_credentials
              (Demo.answering (Demo.host "2" Demo.role "eu-west-1" Demo.always_fails)
                 (Normal {| Credentials := None |}))
              (JArray [JString "svcA"; JString "svcB"])
              {| Credentials := None |} eq_refl eq_refl eq_refl) as [msg Hmsg].
  exists msg. exact Hmsg.
Defined.

Lemma no_retries_no_checks_witness :
  ∃ p, main (Demo.host "0" Demo.role "eu-west-1" (Demo.fails_first 0)) start
       = (Normal (), p)
       ∧ reports p = [SetFailed "Service is not stable after 0 retries!"]
       ∧ waits p = 0%nat
       ∧ exitCode p = 1.
Proof.
  eapply (no_retries_no_checks
            (Demo.host "0" Demo.role "eu-west-1" (Demo.fails_first 0))
            _ _ _ _ _ 0);
    [vm_compute; reflexivity..|lia].
Defined.

Lemma main_succeeds_iff_a_check_resolves_witness :
  exitCode (main (Demo.host "3" Demo.role "eu-west-1" (Demo.fails_first 2)) start).2 = 0
  ↔ ∃ k : nat, (1 ≤ k)%nat ∧ Z.of_nat k <= 3
               ∧ Demo.fails_first 2 (pred k) = None.
Proof.
  eapply (main_succeeds_iff_a_check_resolves
            (Demo.host "3" Demo.role "eu-west-1" (Demo.fails_first 2))
            _ _ _ _ _ 3);
    vm_compute; reflexivity.
Defined.


Lemma missing_role_builds_nothing_witness :
  exitCode (run (Demo.host "2" "" "eu-west-1" Demo.always_fails)).2 = 1
  ∧ Forall (λ e, is_NewECS e = false ∧ is_WaitFor e = false ∧ is_SetOutput e = false)
      (events (run (Demo.host "2" "" "eu-west-1" Demo.always_fails)).2).
Proof.
  destruct (missing_role_builds_nothing
              (Demo.host "2" "" "eu-west-1" Demo.always_fails))
    as (Hexit & Hnone & _); [reflexivity|vm_compute; discriminate|].
  by split.
Defined.

